(** * pdf-formatter: grouping and imposition layout of [ExamReformatter]

    A shallow embedding of [src/pdf_formatter.py].  The PDF, raster and
    canvas libraries are collaborators: page texts are given as strings, the
    success of a rasterization, of an image blit and of an append to the
    output writer is read from an environment, and a rendered sheet is the
    list of drawing operations issued on its canvas.  The messages printed
    on the console, and the count of groups by size that is only printed,
    are left out. *)

From Stdlib Require Import ZArith String Ascii.
From stdpp Require Import base option list gmap strings pretty sorting.

Open Scope string_scope.
Open Scope list_scope.
Open Scope Z_scope.

(** ** Exceptions

    A Python exception that leaves a method is a value [Err e]. *)

Inductive error :=
  | KeyError (key : Z)
  | IndexError
  | RenderError (page_idx : nat).

Inductive result (A : Type) :=
  | Ok (a : A)
  | Err (e : error).
Arguments Ok {A} a.
Arguments Err {A} e.

Global Instance result_ret : MRet result := λ A a, Ok a.
Global Instance result_bind : MBind result := λ A B k m,
  match m with
  | Ok a => k a
  | Err e => Err e
  end.

Definition is_ok {A} (m : result A) : Prop := ∃ a, m = Ok a.
Definition is_err {A} (m : result A) : Prop := ∃ e, m = Err e.

(** ** The marker pattern [re.search(r'TEZA\s*(\d+)', text, re.IGNORECASE)]

    A pattern is a sequence of quantified character classes; matching is
    greedy with backtracking, the way [re] runs it.  Characters are code
    points below 256. *)

Module Re.

Inductive quant := One | Star | Plus.

Record atom := Atom { cls : ascii → bool; q : quant }.

(** [\s] on text: the white space of [str] below code point 256. *)
Definition is_space (c : ascii) : bool :=
  let n := nat_of_ascii c in
  ((9 <=? n) && (n <=? 13) || (28 <=? n) && (n <=? 32)
   || (n =? 133) || (n =? 160))%nat.

(** [\d] on text below code point 256: the ten ASCII digits. *)
Definition is_digit (c : ascii) : bool :=
  let n := nat_of_ascii c in ((48 <=? n) && (n <=? 57))%nat.

(** A literal letter under [re.IGNORECASE]. *)
Definition ci (upper lower : ascii) (c : ascii) : bool :=
  bool_decide (c = upper) || bool_decide (c = lower).

(** Greedy repetition of a class [p] followed by the continuation [k]:
    one more character is tried first, then giving up the repetition here.
    The result is the text the repetition took and what [k] returned. *)
Fixpoint star (p : ascii → bool) (k : string → option (list string))
    (s : string) : option (string * list string) :=
  match s with
  | String c s' =>
      if p c then
        match star p k s' with
        | Some (w, r) => Some (String c w, r)
        | None => (λ r, ("", r)) <$> k s
        end
      else (λ r, ("", r)) <$> k s
  | EmptyString => (λ r, ("", r)) <$> k s
  end.

(** [re_match items s]: the pattern matched at the start of [s]; the
    result lists the text taken by each item, in order. *)
Fixpoint re_match (items : list atom) : string → option (list string) :=
  match items with
  | [] => λ _, Some []
  | a :: rest =>
      let k := re_match rest in
      match q a with
      | One => λ s,
          match s with
          | String c s' =>
              if cls a c then (λ r, String c "" :: r) <$> k s' else None
          | EmptyString => None
          end
      | Star => λ s, (λ wr, wr.1 :: wr.2) <$> star (cls a) k s
      | Plus => λ s,
          match s with
          | String c s' =>
              if cls a c
              then (λ wr, String c wr.1 :: wr.2) <$> star (cls a) k s'
              else None
          | EmptyString => None
          end
      end
  end.

(** [re.search]: the match at the leftmost position that has one. *)
Fixpoint search (items : list atom) (s : string) : option (list string) :=
  match re_match items s with
  | Some m => Some m
  | None =>
      match s with
      | String _ s' => search items s'
      | EmptyString => None
      end
  end.

(** [r'TEZA\s*(\d+)'] with [re.IGNORECASE]. *)
Definition teza_pattern : list atom :=
  [ Atom (ci "T" "t") One; Atom (ci "E" "e") One;
    Atom (ci "Z" "z") One; Atom (ci "A" "a") One;
    Atom is_space Star; Atom is_digit Plus ].

(** [teza_match.group(1)]: the text of the parenthesised item, the sixth. *)
Definition group1 (m : list string) : string := default "" (m !! 5%nat).

Definition digit_val (c : ascii) : Z := Z.of_nat (nat_of_ascii c) - 48.

(** [int(...)] on a string of ASCII digits; integers are unbounded, and the
    interpreter's cap on the length of a decimal string is left out. *)
Fixpoint int_acc (acc : Z) (s : string) : Z :=
  match s with
  | EmptyString => acc
  | String c s' => int_acc (10 * acc + digit_val c) s'
  end.

Definition py_int (s : string) : Z := int_acc 0 s.

(** The marker test of [parse_pdf]: [Some id] when the pattern is found. *)
Definition teza_id (text : string) : option Z :=
  (λ m, py_int (group1 m)) <$> search teza_pattern text.

(** The longest prefix of [s] in the class [p], and what follows it. *)
Fixpoint take_while (p : ascii → bool) (s : string) : string :=
  match s with
  | EmptyString => ""
  | String c s' => if p c then String c (take_while p s') else ""
  end.

Fixpoint drop_while (p : ascii → bool) (s : string) : string :=
  match s with
  | EmptyString => ""
  | String c s' => if p c then drop_while p s' else s
  end.

(** The digits item at the head of a string. *)
Definition digits_match (s : string) : option (list string) :=
  match s with
  | String d s' =>
      if is_digit d then Some [String d (take_while is_digit s')] else None
  | EmptyString => None
  end.

(** The whole pattern at the head of a string. *)
Definition teza_match (s : string) : option (list string) :=
  match s with
  | String t (String e (String z (String a s4))) =>
      if ci "T" "t" t && ci "E" "e" e && ci "Z" "z" z && ci "A" "a" a
      then (λ r, String t "" :: String e "" :: String z "" :: String a ""
                 :: take_while is_space s4 :: r)
             <$> digits_match (drop_while is_space s4)
      else None
  | _ => None
  end.

End Re.

(** ** [parse_pdf]: grouping pages by exam number *)

Record parse_state := ParseState {
  exams : gmap Z (list nat);
  current_exam : option Z
}.

(** [d[k]], raising [KeyError] on a missing key. *)
Definition dict_get (d : gmap Z (list nat)) (k : Z) : result (list nat) :=
  match d !! k with
  | Some l => Ok l
  | None => Err (KeyError k)
  end.

(** [d[k].append(n)] *)
Definition dict_append (d : gmap Z (list nat)) (k : Z) (n : nat)
    : result (gmap Z (list nat)) :=
  l ← dict_get d k; Ok (<[k := l ++ [n]]> d).

(** The body of the loop over the pages. *)
Definition parse_page (st : parse_state) (page_num : nat) (text : string)
    : result parse_state :=
  match Re.teza_id text with
  | Some cur =>
      let ex :=
        if decide (is_Some (exams st !! cur)) then exams st
        else <[cur := []]> (exams st) in
      ex' ← dict_append ex cur page_num;
      Ok (ParseState ex' (Some cur))
  | None =>
      match current_exam st with
      | Some cur =>
          ex' ← dict_append (exams st) cur page_num;
          Ok (ParseState ex' (Some cur))
      | None => Ok st
      end
  end.

(** [for page_num in range(len(pdf_reader.pages))], from [page_num] on. *)
Fixpoint parse_loop (st : parse_state) (page_num : nat) (pages : list string)
    : result parse_state :=
  match pages with
  | [] => Ok st
  | text :: rest =>
      st' ← parse_page st page_num text;
      parse_loop st' (S page_num) rest
  end.

Definition parse_pdf (pages : list string) : result parse_state :=
  parse_loop (ParseState ∅ None) 0 pages.

(** ** Sheets

    A rendered sheet is the sequence of drawing operations issued on its
    canvas.  A cell is addressed by its grid position: the source places it
    at [x = margin + col * cell_width] and
    [y = page_height - margin - (row + 1) * cell_height]. *)

Definition grid_cols : nat := 3.
Definition grid_rows : nat := 2.

Inductive draw_op :=
  | DrawTitle (title : string)
  | DrawRect (row col : nat)
  | DrawLabel (row col : nat) (text : string)
  | DrawImage (row col : nat) (page_idx : nat).

Inductive sheet :=
  | GridSheet (ops : list draw_op)
  | BlankSheet.

(** What the collaborators do: whether [get_pixmap] succeeds on a source
    page, whether [drawImage] succeeds on its raster, and whether the n-th
    attempt to append a page to the output writer succeeds. *)
Record env := Env {
  pixmap_ok : nat → bool;
  draw_image_ok : nat → bool;
  add_page_ok : nat → bool
}.

(** [l[i]], raising [IndexError] out of range. *)
Definition list_get {A} (l : list A) (i : nat) : result A :=
  match l !! i with
  | Some x => Ok x
  | None => Err IndexError
  end.

(** [create_blank_page] *)
Definition create_blank_page : sheet := BlankSheet.

(** [f"E{exam_num}-P{page_idx - first + 1}"] *)
Definition label_text (exam_num : Z) (page_idx first : nat) : string :=
  "E" +:+ pretty exam_num +:+ "-P"
  +:+ pretty (Z.of_nat page_idx - Z.of_nat first + 1).

(** The loop of [create_grid_page] over
    [enumerate(zip(exam_numbers, page_indices))], from position [idx] on,
    with the canvas [ops] and the flag [has_content] as they stand.  The
    border is drawn first, then the label, whose text reads the first page
    of the group; [get_pixmap] is called outside any [try], and [drawImage]
    inside a [try ... finally] that removes the temporary image file and
    has no [except]: either failure leaves the method as an exception and
    the canvas is lost. *)
Fixpoint grid_loop (e : env) (ex : gmap Z (list nat)) (idx : nat)
    (cells : list (option Z * option nat)) (ops : list draw_op)
    (has_content : bool) : result (list draw_op * bool) :=
  match cells with
  | [] => Ok (ops, has_content)
  | (Some exam_num, Some page_idx) :: rest =>
      let row := (idx / grid_cols)%nat in
      let col := (idx mod grid_cols)%nat in
      let ops := ops ++ [DrawRect row col] in
      pages ← dict_get ex exam_num;
      first ← list_get pages 0;
      let ops := ops ++ [DrawLabel row col (label_text exam_num page_idx first)] in
      if pixmap_ok e page_idx then
        if draw_image_ok e page_idx then
          grid_loop e ex (S idx) rest (ops ++ [DrawImage row col page_idx]) true
        else Err (RenderError page_idx)
      else Err (RenderError page_idx)
  | _ :: rest => grid_loop e ex (S idx) rest ops has_content
  end.

(** [create_grid_page]: the rendered sheet and [has_content]. *)
Definition create_grid_page (e : env) (ex : gmap Z (list nat))
    (exam_numbers : list (option Z)) (page_indices : list (option nat))
    (title : string) : result (sheet * bool) :=
  let ops := if decide (title = "") then [] else [DrawTitle title] in
  '(ops, has_content) ← grid_loop e ex 0 (zip exam_numbers page_indices) ops false;
  Ok (GridSheet ops, has_content).

(** ** [reformat_pdf] *)

(** [range(start, stop, step)] for a positive step; [fuel] bounds the
    number of elements. *)
Fixpoint range_aux (fuel start stop step : nat) : list nat :=
  match fuel with
  | O => []
  | S fuel =>
      if (start <? stop)%nat
      then start :: range_aux fuel (start + step)%nat stop step
      else []
  end.

Definition py_range (start stop step : nat) : list nat :=
  range_aux stop start stop step.

(** [l[i:j]] for [0 <= i <= j]. *)
Definition py_slice {A} (l : list A) (i j : nat) : list A :=
  take (j - i) (drop i l).

(** [while len(batch) < 6: batch.append(None)] *)
Fixpoint pad_none (fuel : nat) (batch : list (option Z)) : list (option Z) :=
  match fuel with
  | O => batch
  | S fuel =>
      if (length batch <? 6)%nat then pad_none fuel (batch ++ [None])
      else batch
  end.

(** The batch formed at offset [i] of a list of exam numbers. *)
Definition batch_at (exam_numbers : list Z) (i : nat) : list (option Z) :=
  pad_none 6 (Some <$> py_slice exam_numbers i (i + 6)).

(** The batches of [for i in range(0, len(exam_numbers), 6)]. *)
Definition batches (exam_numbers : list Z) : list (list (option Z)) :=
  batch_at exam_numbers <$> py_range 0 (length exam_numbers) 6.

(** Truth value of a slot: [None] and [0] are false. *)
Definition truthy (exam_num : option Z) : bool :=
  match exam_num with
  | Some n => bool_decide (n ≠ 0)
  | None => false
  end.

(** A loop that appends one computed element per item. *)
Fixpoint for_each {A B} (f : A → result B) (l : list A) : result (list B) :=
  match l with
  | [] => Ok []
  | x :: l => y ← f x; ys ← for_each f l; Ok (y :: ys)
  end.

(** Front side: [exam_num and exam_num in self.exams], first page. *)
Definition first_page (ex : gmap Z (list nat)) (exam_num : option Z)
    : result (option nat) :=
  match exam_num with
  | Some n =>
      if truthy exam_num && bool_decide (is_Some (ex !! n)) then
        pages ← dict_get ex n; p ← list_get pages 0; Ok (Some p)
      else Ok None
  | None => Ok None
  end.

(** Back side: as the front, and [len(self.exams[exam_num]) > 1]. *)
Definition second_page (ex : gmap Z (list nat)) (exam_num : option Z)
    : result (option nat) :=
  match exam_num with
  | Some n =>
      if truthy exam_num && bool_decide (is_Some (ex !! n)) then
        pages ← dict_get ex n;
        if (1 <? length pages)%nat
        then p ← list_get pages 1; Ok (Some p)
        else Ok None
      else Ok None
  | None => Ok None
  end.

(** Third pages: [exam_num and len(self.exams[exam_num]) >= 3]. *)
Definition third_page (ex : gmap Z (list nat)) (exam_num : option Z)
    : result (option nat) :=
  match exam_num with
  | Some n =>
      if truthy exam_num then
        pages ← dict_get ex n;
        if (3 <=? length pages)%nat
        then p ← list_get pages 2; Ok (Some p)
        else Ok None
      else Ok None
  | None => Ok None
  end.

(** [back_order]: the six slots, each row of three reversed. *)
Definition back_order {A} (batch : list A) : result (list A) :=
  b2 ← list_get batch 2; b1 ← list_get batch 1; b0 ← list_get batch 0;
  b5 ← list_get batch 5; b4 ← list_get batch 4; b3 ← list_get batch 3;
  Ok [b2; b1; b0; b5; b4; b3].

(** The output writer: the pages appended so far, and the number of
    appends attempted. *)
Record writer := Writer {
  sheets : list sheet;
  attempts : nat
}.

(** [output_writer.add_page(...)]: the writer afterwards, and whether the
    call returned. *)
Definition add_page (e : env) (w : writer) (s : sheet) : writer * bool :=
  if add_page_ok e (attempts w)
  then (Writer (sheets w ++ [s]) (S (attempts w)), true)
  else (Writer (sheets w) (S (attempts w)), false).

(** [try: add s1; add s2  except Exception: print(...)] *)
Definition try_add_two (e : env) (w : writer) (s1 s2 : sheet) : writer :=
  let '(w1, ok) := add_page e w s1 in
  if ok then (add_page e w1 s2).1 else w1.

(** [str] of a list of integers. *)
Fixpoint join_ints (l : list Z) : string :=
  match l with
  | [] => ""
  | [x] => pretty x
  | x :: l => pretty x +:+ ", " +:+ join_ints l
  end.

Definition list_repr (l : list Z) : string := "[" +:+ join_ints l +:+ "]".

(** [[b for b in batch if b is not None]] *)
Definition not_none (batch : list (option Z)) : list Z := omap id batch.

(** One round of the loop over the primary batches. *)
Definition primary_step (e : env) (ex : gmap Z (list nat))
    (batch_count : nat) (w : writer) (batch : list (option Z))
    : result writer :=
  page_indices ← for_each (first_page ex) batch;
  '(front_packet, _) ← create_grid_page e ex batch page_indices
      ("Batch " +:+ pretty batch_count +:+ " - First Pages");
  back ← back_order batch;
  page_indices ← for_each (second_page ex) back;
  '(back_packet, has_second_pages) ← create_grid_page e ex back page_indices
      ("Batch " +:+ pretty batch_count +:+ " - Second Pages");
  Ok (try_add_two e w front_packet
        (if has_second_pages : bool then back_packet else create_blank_page)).

(** The loop over the primary batches; [batch_count] is the number of
    batches already processed. *)
Fixpoint primary_loop (e : env) (ex : gmap Z (list nat)) (batch_count : nat)
    (w : writer) (bs : list (list (option Z))) : result writer :=
  match bs with
  | [] => Ok w
  | batch :: bs =>
      w' ← primary_step e ex (S batch_count) w batch;
      primary_loop e ex (S batch_count) w' bs
  end.

(** [[exam for exam in exam_numbers if len(self.exams[exam]) >= 3]] *)
Fixpoint third_page_exams (ex : gmap Z (list nat)) (exam_numbers : list Z)
    : result (list Z) :=
  match exam_numbers with
  | [] => Ok []
  | exam :: rest =>
      pages ← dict_get ex exam;
      tl ← third_page_exams ex rest;
      Ok (if (3 <=? length pages)%nat then exam :: tl else tl)
  end.

(** One round of the loop over the batches of third pages. *)
Definition third_step (e : env) (ex : gmap Z (list nat)) (w : writer)
    (batch : list (option Z)) : result writer :=
  page_indices ← for_each (third_page ex) batch;
  '(third_packet, _) ← create_grid_page e ex batch page_indices
      ("Third Pages - Exams " +:+ list_repr (not_none batch));
  let blank_packet := create_blank_page in
  Ok (try_add_two e w third_packet blank_packet).

Fixpoint third_loop (e : env) (ex : gmap Z (list nat)) (w : writer)
    (bs : list (list (option Z))) : result writer :=
  match bs with
  | [] => Ok w
  | batch :: bs => w' ← third_step e ex w batch; third_loop e ex w' bs
  end.

(** [sorted(self.exams.keys())] *)
Definition sorted_keys (ex : gmap Z (list nat)) : list Z :=
  merge_sort Z.le (map fst (map_to_list ex)).

(** The layout part of [reformat_pdf], on the groups found by [parse_pdf]:
    the pages of the output document. *)
Definition layout (e : env) (ex : gmap Z (list nat)) : result (list sheet) :=
  let exam_numbers := sorted_keys ex in
  w ← primary_loop e ex 0 (Writer [] 0) (batches exam_numbers);
  third ← third_page_exams ex exam_numbers;
  w ← (if decide (third = []) then Ok w
       else third_loop e ex w (batches third));
  Ok (sheets w).

(** [reformat_pdf]: [Ok out] when the run reaches the write of the output
    document, with the pages [out]; [Err] when an exception leaves the
    method, before any output is written. *)
Definition reformat_pdf (e : env) (pages : list string) : result (list sheet) :=
  st ← parse_pdf pages;
  layout e (exams st).

Definition env_ok : env := Env (λ _, true) (λ _, true) (λ _, true).

(** ** The marker pattern, as the specification words it

    The token TEZA in any letter case, then zero or more white space
    characters, then one or more digits, taken as far as they go. *)

Fixpoint str_forall (p : ascii → bool) (s : string) : bool :=
  match s with
  | EmptyString => true
  | String c s => p c && str_forall p s
  end.

Fixpoint str_map (f : ascii → ascii) (s : string) : string :=
  match s with
  | EmptyString => ""
  | String c s => String (f c) (str_map f s)
  end.

(** ASCII lower case. *)
Definition lower (c : ascii) : ascii :=
  let n := nat_of_ascii c in
  if ((65 <=? n) && (n <=? 90))%nat then ascii_of_nat (n + 32) else c.

(** Whether the first character of [s], if any, satisfies [p]. *)
Definition head_sat (p : ascii → bool) (s : string) : bool :=
  match s with
  | EmptyString => false
  | String c _ => p c
  end.

(** [s] starts with a marker whose digits are [ds]. *)
Definition marker_here (s ds : string) : Prop :=
  ∃ tok ws post,
    s = tok +:+ ws +:+ ds +:+ post ∧
    str_map lower tok = "teza" ∧
    str_forall Re.is_space ws = true ∧
    ds ≠ "" ∧ str_forall Re.is_digit ds = true ∧
    head_sat Re.is_digit post = false.

(** The leftmost marker of [text] has the digits [ds]. *)
Definition first_marker (text ds : string) : Prop :=
  ∃ pre s,
    text = pre +:+ s ∧ marker_here s ds ∧
    ∀ pre' s' ds', text = pre' +:+ s' → marker_here s' ds' →
      (String.length pre ≤ String.length pre')%nat.

(** ** Classification, as the specification words it

    A fold over the pages in source order, carrying the groups and the
    active group id. *)

Definition pages_of (ex : gmap Z (list nat)) (g : Z) : list nat :=
  default [] (ex !! g).

(** A marker page starts or resumes its group and makes it active; any
    other page goes to the active group, or nowhere when there is none. *)
Definition classify_step (st : parse_state) (page_num : nat) (text : string)
    : parse_state :=
  match Re.teza_id text with
  | Some g =>
      ParseState (<[g := pages_of (exams st) g ++ [page_num]]> (exams st))
                 (Some g)
  | None =>
      match current_exam st with
      | Some g =>
          ParseState (<[g := pages_of (exams st) g ++ [page_num]]> (exams st))
                     (Some g)
      | None => st
      end
  end.

Fixpoint classify_from (st : parse_state) (page_num : nat)
    (pages : list string) : parse_state :=
  match pages with
  | [] => st
  | text :: rest => classify_from (classify_step st page_num text) (S page_num) rest
  end.

Definition classify (pages : list string) : parse_state :=
  classify_from (ParseState ∅ None) 0 pages.

(** The group that is active once page [i] has been read: the id of the
    last marker page at or before [i], starting from [cur]. *)
Fixpoint active_from (cur : option Z) (pages : list string) (i : nat)
    : option Z :=
  match pages with
  | [] => None
  | text :: rest =>
      let cur' := match Re.teza_id text with Some g => Some g | None => cur end in
      match i with
      | O => cur'
      | S i => active_from cur' rest i
      end
  end.

Definition active (pages : list string) (i : nat) : option Z :=
  active_from None pages i.

(** ** What a sheet shows *)

(** The source page an operation blits, if it is an image. *)
Definition op_image (o : draw_op) : option nat :=
  match o with
  | DrawImage _ _ p => Some p
  | _ => None
  end.

(** The source pages shown on a sheet, in drawing order. *)
Definition sheet_images (s : sheet) : list nat :=
  match s with
  | GridSheet ops => omap op_image ops
  | BlankSheet => []
  end.

(** A resolved cell is non-empty when it has both an exam number and a
    page index. *)
Definition cell_full (c : option Z * option nat) : bool :=
  match c with
  | (Some _, Some _) => true
  | _ => false
  end.

Definition cell_page (c : option Z * option nat) : option nat :=
  match c with
  | (Some _, Some p) => Some p
  | _ => None
  end.

(** The page a slot shows at rank [r]: the page at that rank of the group
    in the slot, for a slot whose exam number is true. *)
Definition resolve (ex : gmap Z (list nat)) (r : nat) (exam_num : option Z)
    : option nat :=
  match exam_num with
  | Some g => if truthy exam_num then pages_of ex g !! r else None
  | None => None
  end.

(** Every page a sheet shows is one of the first three pages of a group
    whose id is not zero. *)
Definition shows_ranked (ex : gmap Z (list nat)) (s : sheet) : Prop :=
  ∀ p, p ∈ sheet_images s →
    ∃ g l r, g ≠ 0 ∧ ex !! g = Some l ∧ l !! r = Some p ∧ (r ≤ 2)%nat.

(** The environment in which every append succeeds and rendering goes as
    in [e]. *)
Definition appends_ok (e : env) : env :=
  Env (pixmap_ok e) (draw_image_ok e) (λ _, true).

(** What becomes of the pairs of sheets handed to the writer, batch after
    batch, when the append numbered [k] succeeds exactly when [ok k], [n]
    appends having been attempted so far.  Of a pair both sheets are kept
    when both appends succeed; the first alone when the append of the
    second fails; none when the append of the first fails, and then the
    second is not attempted.  In every case the pairs that follow are gone
    through in the same way. *)
Fixpoint appended (ok : nat → bool) (n : nat) (prs : list (sheet * sheet))
    : list sheet :=
  match prs with
  | [] => []
  | (s1, s2) :: prs =>
      if ok n then
        if ok (S n) then s1 :: s2 :: appended ok (S (S n)) prs
        else s1 :: appended ok (S (S n)) prs
      else appended ok (S n) prs
  end.

(** The number of appends attempted once the pairs have been gone
    through. *)
Fixpoint attempts_after (ok : nat → bool) (n : nat) (prs : list (sheet * sheet))
    : nat :=
  match prs with
  | [] => n
  | _ :: prs => attempts_after ok (if ok n then S (S n) else S n) prs
  end.

(** The two sheets of a pair. *)
Definition pair_sheets (pr : sheet * sheet) : list sheet := [pr.1; pr.2].


(** Environments in which one call fails: the [k]-th append, the blit of
    page [p], the rasterization of page [p]. *)
Definition env_append_fails (k : nat) : env :=
  Env (λ _, true) (λ _, true) (λ n, negb (n =? k)%nat).

Definition env_draw_fails (p : nat) : env :=
  Env (λ _, true) (λ q, negb (q =? p)%nat) (λ _, true).

Definition env_pixmap_fails (p : nat) : env :=
  Env (λ q, negb (q =? p)%nat) (λ _, true) (λ _, true).

(** Every rasterization and every image blit succeeds. *)
Definition renders_ok (e : env) : Prop :=
  ∀ p, pixmap_ok e p = true ∧ draw_image_ok e p = true.

(** Every group has at least one page. *)
Definition groups_nonempty (ex : gmap Z (list nat)) : Prop :=
  ∀ g l, ex !! g = Some l → l ≠ [].

(** The active group, if any, is a key of the dictionary. *)
Definition active_known (st : parse_state) : Prop :=
  ∀ g, current_exam st = Some g → is_Some (exams st !! g).

(** The pages of a group are distinct and below the page counter. *)
Definition groups_fresh (st : parse_state) (n : nat) : Prop :=
  ∀ g l, exams st !! g = Some l → NoDup l ∧ ∀ p, p ∈ l → (p < n)%nat.

(** ** The drawing operations of a sheet, cell by cell *)

Definition sheet_ops (s : sheet) : list draw_op :=
  match s with
  | GridSheet ops => ops
  | BlankSheet => []
  end.

Definition op_label (o : draw_op) : option string :=
  match o with
  | DrawLabel _ _ t => Some t
  | _ => None
  end.

(** The labels written on a sheet, in drawing order. *)
Definition sheet_labels (s : sheet) : list string :=
  omap op_label (sheet_ops s).

Definition op_rect (o : draw_op) : option (nat * nat) :=
  match o with
  | DrawRect r c => Some (r, c)
  | _ => None
  end.

(** The grid positions (row, column) of the borders drawn on a sheet. *)
Definition sheet_rects (s : sheet) : list (nat * nat) :=
  omap op_rect (sheet_ops s).

(** The positions of [enumerate(zip(...))], counted from [idx], whose exam
    number and page index are both present, with the two. *)
Fixpoint full_cells (idx : nat) (cells : list (option Z * option nat))
    : list (nat * Z * nat) :=
  match cells with
  | [] => []
  | (Some g, Some p) :: rest => (idx, g, p) :: full_cells (S idx) rest
  | _ :: rest => full_cells (S idx) rest
  end.

(** [self.exams[exam_num][0]] for a group that has a page. *)
Definition first_of (ex : gmap Z (list nat)) (g : Z) : nat :=
  default 0%nat (pages_of ex g !! 0%nat).

(** What one non-empty cell draws: border, label, image. *)
Definition cell_ops (ex : gmap Z (list nat)) (c : nat * Z * nat)
    : list draw_op :=
  let '(idx, g, p) := c in
  let row := (idx / grid_cols)%nat in
  let col := (idx mod grid_cols)%nat in
  [DrawRect row col; DrawLabel row col (label_text g p (first_of ex g));
   DrawImage row col p].

Definition title_ops (title : string) : list draw_op :=
  if decide (title = "") then [] else [DrawTitle title].

(** The sheet of a list of cells. *)
Definition sheet_of (ex : gmap Z (list nat)) (title : string)
    (cells : list (option Z * option nat)) : sheet :=
  GridSheet (title_ops title ++ concat (cell_ops ex <$> full_cells 0 cells)).

(** A non-empty cell that [create_grid_page] can draw: its exam is a key
    with at least one page, and its page rasterizes and blits. *)
Definition cell_drawable (e : env) (ex : gmap Z (list nat)) (g : Z) (p : nat)
    : Prop :=
  (∃ l, ex !! g = Some l ∧ l ≠ []) ∧
  pixmap_ok e p = true ∧ draw_image_ok e p = true.

(** The slot on the back side that lies behind slot [i] of the front side
    once the sheet is flipped: same row, columns mirrored. *)
Definition mirror (i : nat) : nat :=
  (grid_cols * (i / grid_cols) + (grid_cols - 1 - i mod grid_cols))%nat.

(** ** The count of the exams by number of pages *)

(** Order of [sorted(self.exams.items())]: the keys of a dictionary are
    distinct, so the pairs are ordered by their keys. *)
Definition item_le (a b : Z * list nat) : Prop := a.1 ≤ b.1.

Global Instance item_le_dec : RelDecision item_le.
Proof. intros a b. unfold item_le. apply _. Defined.

Definition sorted_items (ex : gmap Z (list nat)) : list (Z * list nat) :=
  merge_sort item_le (map_to_list ex).

(** The loop that fills [one_page_exams], [two_page_exams] and
    [three_plus_page_exams]. *)
Fixpoint categorize (items : list (Z * list nat)) (one two three : list Z)
    : list Z * list Z * list Z :=
  match items with
  | [] => (one, two, three)
  | (exam_num, pages) :: rest =>
      if (length pages =? 1)%nat
      then categorize rest (one ++ [exam_num]) two three
      else if (length pages =? 2)%nat
      then categorize rest one (two ++ [exam_num]) three
      else categorize rest one two (three ++ [exam_num])
  end.

Definition exams_by_size (ex : gmap Z (list nat)) : list Z * list Z * list Z :=
  categorize (sorted_items ex) [] [] [].

(** The source pages shown in an output document, sheet after sheet. *)
Definition output_images (out : list sheet) : list nat :=
  concat (sheet_images <$> out).

(** [back_order] of a batch, when the batch has its six slots. *)
Definition back_slots (batch : list (option Z)) : list (option Z) :=
  match back_order batch with
  | Ok bo => bo
  | Err _ => []
  end.

(** The sizes of the output: the number of groups, and the number of
    groups with three pages or more. *)
Definition long_groups (ex : gmap Z (list nat)) : list Z :=
  filter (λ g, (3 ≤ length (pages_of ex g))%nat) (sorted_keys ex).

(** A page that one of the sheets has to render: one of the first three
    pages of a group whose id is not zero. *)
Definition shown_page (ex : gmap Z (list nat)) (p : nat) : Prop :=
  ∃ g l r, g ≠ 0 ∧ ex !! g = Some l ∧ l !! r = Some p ∧ (r ≤ 2)%nat.

(** The pages that the sheets have to render, group after group. *)
Definition shown_list (ex : gmap Z (list nat)) : list nat :=
  concat ((λ g, if decide (g = 0) then [] else take 3 (pages_of ex g))
          <$> sorted_keys ex).

(** * Theorems *)

Module ReFacts.
Import Re.

Lemma app_cons_str c (a b : string) : String c a +:+ b = String c (a +:+ b).
Proof. reflexivity. Qed.

Lemma app_nil_str (b : string) : "" +:+ b = b.
Proof. reflexivity. Qed.

Lemma app_assoc_str (a b c : string) : (a +:+ b) +:+ c = a +:+ b +:+ c.
Proof.
  induction a as [|x a IH]; [done|]. by rewrite !app_cons_str, IH.
Qed.

Lemma app_length_str (a b : string) :
  String.length (a +:+ b) = (String.length a + String.length b)%nat.
Proof.
  induction a as [|x a IH]; [done|]. rewrite app_cons_str. simpl. by rewrite IH.
Qed.

Lemma take_drop_while p s : s = take_while p s +:+ drop_while p s.
Proof.
  induction s as [|c s IH]; simpl; [done|].
  destruct (p c); [by rewrite app_cons_str, <- IH|done].
Qed.

Lemma take_while_forall p s : str_forall p (take_while p s) = true.
Proof.
  induction s as [|c s IH]; simpl; [done|].
  destruct (p c) eqn:E; simpl; [by rewrite E|done].
Qed.

Lemma drop_while_head p s : head_sat p (drop_while p s) = false.
Proof.
  induction s as [|c s IH]; simpl; [done|].
  destruct (p c) eqn:E; simpl; done.
Qed.

Lemma take_while_app p a b :
  str_forall p a = true → head_sat p b = false →
  take_while p (a +:+ b) = a ∧ drop_while p (a +:+ b) = b.
Proof.
  intros Ha Hb. induction a as [|c a IH].
  - rewrite app_nil_str. destruct b as [|c b]; simpl in *; [done|].
    by rewrite Hb.
  - rewrite app_cons_str. simpl in *.
    apply andb_true_iff in Ha as [-> Ha]. by destruct (IH Ha) as [-> ->].
Qed.

Lemma space_not_digit c : is_space c = true → is_digit c = false.
Proof. destruct c as [[] [] [] [] [] [] [] []]; vm_compute; done. Qed.

Lemma star_digits s :
  star is_digit (λ _, Some []) s = Some (take_while is_digit s, []).
Proof.
  induction s as [|c s IH]; simpl; [done|].
  destruct (is_digit c); [by rewrite IH|done].
Qed.

Lemma star_spaces (k : string → option (list string)) s :
  (∀ c s, is_space c = true → k (String c s) = None) →
  star is_space k s
  = (λ r, (take_while is_space s, r)) <$> k (drop_while is_space s).
Proof.
  intros Hk. induction s as [|c s IH]; simpl; [done|].
  destruct (is_space c) eqn:E; [|done].
  rewrite IH. destruct (k (drop_while is_space s)); simpl; [done|].
  by rewrite Hk.
Qed.

Lemma re_match_digits s : re_match [Atom is_digit Plus] s = digits_match s.
Proof.
  destruct s as [|d s]; simpl; [done|].
  destruct (is_digit d); [|done]. by rewrite star_digits.
Qed.

Lemma re_match_tail s :
  re_match [Atom is_space Star; Atom is_digit Plus] s
  = (λ r, take_while is_space s :: r) <$> digits_match (drop_while is_space s).
Proof.
  change (re_match [Atom is_space Star; Atom is_digit Plus] s)
    with ((λ wr : string * list string, wr.1 :: wr.2)
            <$> star is_space (re_match [Atom is_digit Plus]) s).
  rewrite star_spaces.
  - rewrite re_match_digits. by destruct (digits_match _).
  - intros c s' Hc. rewrite re_match_digits. simpl.
    by rewrite (space_not_digit c Hc).
Qed.

Lemma re_match_one p rest c s :
  re_match (Atom p One :: rest) (String c s)
  = if p c then (λ r, String c "" :: r) <$> re_match rest s else None.
Proof. reflexivity. Qed.

Lemma re_match_one_nil p rest : re_match (Atom p One :: rest) "" = None.
Proof. reflexivity. Qed.

Lemma re_match_teza s : re_match teza_pattern s = teza_match s.
Proof.
  unfold teza_pattern, teza_match.
  destruct s as [|t [|e [|z [|a s4]]]];
    rewrite ?re_match_one, ?re_match_one_nil, ?re_match_tail;
    try reflexivity.
  - by destruct (ci "T" "t" t).
  - by destruct (ci "T" "t" t), (ci "E" "e" e).
  - by destruct (ci "T" "t" t), (ci "E" "e" e), (ci "Z" "z" z).
  - destruct (ci "T" "t" t), (ci "E" "e" e), (ci "Z" "z" z), (ci "A" "a" a);
      try reflexivity.
    simpl. by destruct (digits_match _).
Qed.

Lemma ci_lower_t c : ci "T" "t" c = true ↔ lower c = "t"%char.
Proof.
  destruct c as [[] [] [] [] [] [] [] []]; vm_compute; split; congruence.
Qed.

Lemma ci_lower_e c : ci "E" "e" c = true ↔ lower c = "e"%char.
Proof.
  destruct c as [[] [] [] [] [] [] [] []]; vm_compute; split; congruence.
Qed.

Lemma ci_lower_z c : ci "Z" "z" c = true ↔ lower c = "z"%char.
Proof.
  destruct c as [[] [] [] [] [] [] [] []]; vm_compute; split; congruence.
Qed.

Lemma ci_lower_a c : ci "A" "a" c = true ↔ lower c = "a"%char.
Proof.
  destruct c as [[] [] [] [] [] [] [] []]; vm_compute; split; congruence.
Qed.

Lemma digit_not_space c : is_digit c = true → is_space c = false.
Proof.
  intros Hd. destruct (is_space c) eqn:E; [|done].
  apply space_not_digit in E. congruence.
Qed.

Lemma teza_match_marker s m :
  teza_match s = Some m → marker_here s (group1 m).
Proof.
  destruct s as [|t [|e [|z [|a s4]]]]; try discriminate. simpl.
  destruct (ci "T" "t" t) eqn:Et; [|discriminate].
  destruct (ci "E" "e" e) eqn:Ee; [|discriminate].
  destruct (ci "Z" "z" z) eqn:Ez; [|discriminate].
  destruct (ci "A" "a" a) eqn:Ea; [|discriminate]. simpl.
  pose proof (take_drop_while is_space s4) as Hs4.
  pose proof (take_while_forall is_space s4) as Hws.
  destruct (drop_while is_space s4) as [|d s5] eqn:Ed; [discriminate|].
  simpl. destruct (is_digit d) eqn:Hd; [|discriminate].
  intros [= <-]. unfold group1; simpl.
  exists (String t (String e (String z (String a "")))),
    (take_while is_space s4), (drop_while is_digit s5).
  split_and!.
  - rewrite !app_cons_str, app_nil_str. do 4 f_equal.
    rewrite Hs4 at 1. do 2 f_equal. apply take_drop_while.
  - simpl. apply ci_lower_t in Et. apply ci_lower_e in Ee.
    apply ci_lower_z in Ez. apply ci_lower_a in Ea.
    by rewrite Et, Ee, Ez, Ea.
  - done.
  - done.
  - simpl. by rewrite Hd, take_while_forall.
  - apply drop_while_head.
Qed.

Lemma marker_teza_match s ds :
  marker_here s ds → ∃ m, teza_match s = Some m ∧ group1 m = ds.
Proof.
  intros (tok & ws & post & -> & Htok & Hws & Hne & Hds & Hpost).
  destruct tok as [|t [|e [|z [|a [|]]]]]; try discriminate.
  simpl in Htok. injection Htok as Ht He Hz Ha.
  apply ci_lower_t in Ht. apply ci_lower_e in He.
  apply ci_lower_z in Hz. apply ci_lower_a in Ha.
  destruct ds as [|d ds]; [done|]. simpl in Hds.
  apply andb_true_iff in Hds as [Hd Hds].
  rewrite !app_cons_str, app_nil_str. simpl. rewrite Ht, He, Hz, Ha. simpl.
  destruct (take_while_app is_space ws (String d (ds +:+ post))) as [-> ->];
    [done|by apply digit_not_space|].
  simpl. rewrite Hd.
  destruct (take_while_app is_digit ds post) as [-> _]; [done..|].
  eexists; split; [reflexivity|done].
Qed.

Lemma search_leftmost items s m :
  search items s = Some m →
  ∃ pre s', s = pre +:+ s' ∧ re_match items s' = Some m ∧
    ∀ pre' s'', s = pre' +:+ s'' →
      (String.length pre' < String.length pre)%nat →
      re_match items s'' = None.
Proof.
  induction s as [|c s IH]; simpl.
  - destruct (re_match items "") eqn:E; [|done]. intros [= ->].
    exists "", "". split_and!; [done..|]. simpl. lia.
  - destruct (re_match items (String c s)) eqn:E.
    + intros [= ->]. exists "", (String c s). split_and!; [done..|].
      simpl. lia.
    + intros (pre & s' & -> & Hm & Hleft)%IH.
      exists (String c pre), s'. split_and!; [done..|].
      intros pre' s'' Heq Hlen. destruct pre' as [|c' pre'].
      * rewrite app_nil_str in Heq. by subst.
      * rewrite !app_cons_str in Heq. injection Heq as -> Heq.
        apply (Hleft pre'); [done|]. simpl in Hlen. lia.
Qed.

Lemma search_none items s :
  search items s = None → ∀ pre s', s = pre +:+ s' → re_match items s' = None.
Proof.
  induction s as [|c s IH]; simpl.
  - destruct (re_match items "") eqn:E; [done|]. intros _ pre s' Heq.
    destruct pre; [|done]. rewrite app_nil_str in Heq. by subst.
  - destruct (re_match items (String c s)) eqn:E; [done|].
    intros Hs pre s' Heq. destruct pre as [|c' pre].
    + rewrite app_nil_str in Heq. by subst.
    + rewrite app_cons_str in Heq. injection Heq as -> Heq. by eapply IH.
Qed.

(** C9, the marker pattern.  [teza_id] finds a marker exactly when the text
    holds, at some position, the token TEZA in any letter case followed by
    zero or more white space characters and one or more digits; the id is
    the integer value of the digits of the leftmost such occurrence.  The
    page texts ["teza  12"] and ["TEZA12"] both give the group id 12. *)
Theorem teza_id_spec :
  (∀ text n,
     teza_id text = Some n ↔ ∃ ds, first_marker text ds ∧ n = py_int ds) ∧
  (∀ text,
     teza_id text = None ↔
     ∀ pre s ds, text = pre +:+ s → ¬ marker_here s ds) ∧
  teza_id "teza  12" = Some 12 ∧
  teza_id "TEZA12" = Some 12.
Proof.
  assert (Hsome : ∀ text m, search teza_pattern text = Some m →
            first_marker text (group1 m)).
  { intros text m (pre & s & -> & Hm & Hleft)%search_leftmost.
    exists pre, s. split_and!; [done| |].
    - apply teza_match_marker. by rewrite <- re_match_teza.
    - intros pre' s' ds' Heq (m' & Hm' & _)%marker_teza_match.
      destruct (decide (String.length pre ≤ String.length pre')%nat); [done|].
      rewrite <- re_match_teza, (Hleft pre' s') in Hm'; [done..|lia]. }
  assert (Hnone : ∀ text, search teza_pattern text = None →
            ∀ pre s ds, text = pre +:+ s → ¬ marker_here s ds).
  { intros text Hs pre s ds Heq (m & Hm & _)%marker_teza_match.
    rewrite <- re_match_teza, (search_none _ _ Hs pre s Heq) in Hm. done. }
  assert (Huniq : ∀ text ds ds',
            first_marker text ds → first_marker text ds' → ds = ds').
  { intros text ds ds' (pre & s & Heq & Hm & Hl) (pre' & s' & Heq' & Hm' & Hl').
    pose proof (Hl _ _ _ Heq' Hm'). pose proof (Hl' _ _ _ Heq Hm).
    assert (String.length pre = String.length pre') as Hlen by lia.
    assert (pre = pre' ∧ s = s') as [-> ->].
    { clear -Heq Heq' Hlen. subst text. revert pre' Heq' Hlen.
      induction pre as [|c pre IH]; intros [|c' pre'] Heq' Hlen;
        try discriminate; [done|].
      rewrite !app_cons_str in Heq'. injection Heq' as -> Heq'.
      destruct (IH pre') as [-> ->]; [done|simpl in Hlen; lia|done]. }
    apply marker_teza_match in Hm as (m & Hm & <-).
    apply marker_teza_match in Hm' as (m' & Hm' & <-). congruence. }
  split_and!.
  - intros text n. unfold teza_id. split.
    + destruct (search teza_pattern text) as [m|] eqn:E; [|done].
      intros [= <-]. exists (group1 m). split; [by apply Hsome|done].
    + intros (ds & Hfm & ->).
      destruct (search teza_pattern text) as [m|] eqn:E; simpl.
      * by rewrite (Huniq _ _ _ Hfm (Hsome _ _ E)).
      * destruct Hfm as (pre & s & Heq & Hm & _).
        by destruct (Hnone _ E _ _ _ Heq Hm).
  - intros text. unfold teza_id. split.
    + destruct (search teza_pattern text) as [m|] eqn:E; [done|].
      intros _. by apply Hnone.
    + intros Hno. destruct (search teza_pattern text) as [m|] eqn:E; [|done].
      destruct (Hsome _ _ E) as (pre & s & Heq & Hm & _).
      by destruct (Hno _ _ _ Heq Hm).
  - reflexivity.
  - reflexivity.
Qed.

End ReFacts.

(** ** Classification *)

Section classification.

Lemma classify_step_known st n text :
  active_known (classify_step st n text).
Proof.
  unfold classify_step, active_known.
  destruct (Re.teza_id text) as [g|]; simpl.
  - intros g' [= <-]. rewrite lookup_insert_eq. eauto.
  - destruct (current_exam st) as [g|] eqn:E; simpl; [|by rewrite E].
    intros g' [= <-]. rewrite lookup_insert_eq. eauto.
Qed.

Lemma parse_page_classify st n text :
  active_known st → parse_page st n text = Ok (classify_step st n text).
Proof.
  intros Hk. unfold parse_page, classify_step, dict_append, dict_get, pages_of.
  destruct (Re.teza_id text) as [g|].
  - destruct (decide (is_Some (exams st !! g))) as [[l Hl]|Hn].
    + rewrite Hl. done.
    + rewrite lookup_insert_eq. simpl.
      apply eq_None_not_Some in Hn. rewrite Hn. simpl.
      by rewrite insert_insert_eq.
  - destruct (current_exam st) as [g|] eqn:E; [|done].
    destruct (Hk g E) as [l Hl]. rewrite Hl. done.
Qed.

Lemma parse_loop_classify st n pages :
  active_known st → parse_loop st n pages = Ok (classify_from st n pages).
Proof.
  revert st n. induction pages as [|text rest IH]; intros st n Hk; [done|].
  simpl. rewrite parse_page_classify by done. simpl.
  apply IH, classify_step_known.
Qed.

Lemma pages_of_classify_step st n text g i :
  i ∈ pages_of (exams (classify_step st n text)) g ↔
  i ∈ pages_of (exams st) g ∨
  (i = n ∧ current_exam (classify_step st n text) = Some g
   ∧ active_from (current_exam st) [text] 0 = Some g).
Proof.
  unfold classify_step, pages_of. simpl.
  destruct (Re.teza_id text) as [g'|]; simpl.
  - destruct (decide (g' = g)) as [->|Hne].
    + rewrite lookup_insert_eq. simpl. rewrite elem_of_app, list_elem_of_singleton.
      intuition congruence.
    + rewrite lookup_insert_ne by done. intuition congruence.
  - destruct (current_exam st) as [g'|] eqn:E; simpl.
    + destruct (decide (g' = g)) as [->|Hne].
      * rewrite lookup_insert_eq. simpl.
        rewrite elem_of_app, list_elem_of_singleton. intuition congruence.
      * rewrite lookup_insert_ne by done. intuition congruence.
    + rewrite E. intuition congruence.
Qed.

Lemma current_classify_step st n text :
  current_exam (classify_step st n text)
  = match Re.teza_id text with Some g => Some g | None => current_exam st end.
Proof.
  unfold classify_step. destruct (Re.teza_id text); [done|].
  by destruct (current_exam st) eqn:E.
Qed.

Lemma pages_of_classify_from st n pages g i :
  i ∈ pages_of (exams (classify_from st n pages)) g ↔
  i ∈ pages_of (exams st) g ∨
  ((n ≤ i < n + length pages)%nat
   ∧ active_from (current_exam st) pages (i - n) = Some g).
Proof.
  revert st n. induction pages as [|text rest IH]; intros st n.
  - simpl. split; [auto|]. intros [?|[? _]]; [done|lia].
  - cbn [classify_from]. rewrite IH, pages_of_classify_step.
    rewrite !current_classify_step. cbn [length active_from].
    split.
    + intros [[?|(-> & _ & H)]|[Hi H]]; [by left|right..].
      * split; [lia|]. replace (n - n)%nat with 0%nat by lia. done.
      * split; [lia|]. replace (i - n)%nat with (S (i - S n)) by lia. done.
    + intros [?|[Hi H]]; [by left; left|].
      destruct (decide (i = n)) as [->|Hne].
      * left; right. replace (n - n)%nat with 0%nat in H by lia. done.
      * right. split; [lia|].
        replace (i - n)%nat with (S (i - S n)) in H by lia. done.
Qed.

Lemma classify_from_snoc st n pages text :
  classify_from st n (pages ++ [text])
  = classify_step (classify_from st n pages) (n + length pages) text.
Proof.
  revert st n. induction pages as [|t rest IH]; intros st n; simpl.
  - by rewrite Nat.add_0_r.
  - rewrite IH. f_equal. lia.
Qed.

Lemma classify_from_known st n pages :
  active_known st → active_known (classify_from st n pages).
Proof.
  revert st n. induction pages as [|t rest IH]; intros st n Hk; [done|].
  simpl. apply IH, classify_step_known.
Qed.

Lemma init_known : active_known (ParseState ∅ None).
Proof. intros g. done. Qed.

Lemma parse_pdf_ok pages : parse_pdf pages = Ok (classify pages).
Proof. apply parse_loop_classify, init_known. Qed.

Lemma classify_member pages g i :
  i ∈ pages_of (exams (classify pages)) g ↔
  (i < length pages)%nat ∧ active pages i = Some g.
Proof.
  unfold classify, active.
  rewrite pages_of_classify_from. unfold pages_of; simpl.
  rewrite lookup_empty; simpl. rewrite Nat.sub_0_r.
  split; [intros [H|[? ?]]; [by apply elem_of_nil in H|split; [lia|done]]|].
  intros [? ?]. right. split; [lia|done].
Qed.

(** C1, classification is a fold over the pages in source order.
    [parse_pdf] never fails and computes the fold [classify]; reading one
    more page is one more step of the loop body on the state reached so
    far.  On a marker page the body puts the page index at the end of the
    list of the matched id (the list the id already has, or an empty one)
    and makes the id active; on any other page it puts the index at the end
    of the list of the active group, and leaves the state as it is when no
    group has been active yet.  So page [i] belongs to group [g] exactly
    when [g] is the id of the last marker page at or before [i], and to no
    group when no marker page comes at or before it. *)
Theorem parse_pdf_fold :
  (∀ pages, parse_pdf pages = Ok (classify pages)) ∧
  (∀ pages text,
     parse_pdf (pages ++ [text])
     = st ← parse_pdf pages; parse_page st (length pages) text) ∧
  (∀ pages text,
     let st := classify pages in
     ∃ st', parse_page st (length pages) text = Ok st' ∧
       match Re.teza_id text, current_exam st with
       | Some g, _ | None, Some g =>
           exams st'
           = <[g := pages_of (exams st) g ++ [length pages]]> (exams st)
           ∧ current_exam st' = Some g
       | None, None => st' = st
       end) ∧
  (∀ pages g i,
     i ∈ pages_of (exams (classify pages)) g ↔
     (i < length pages)%nat ∧ active pages i = Some g).
Proof.
  split_and!.
  - apply parse_pdf_ok.
  - intros pages text. rewrite !parse_pdf_ok. simpl.
    rewrite parse_page_classify by apply classify_from_known, init_known.
    unfold classify. by rewrite classify_from_snoc.
  - intros pages text st. exists (classify_step st (length pages) text).
    split; [apply parse_page_classify, classify_from_known, init_known|].
    unfold classify_step.
    destruct (Re.teza_id text); [done|]. by destruct (current_exam st).
  - apply classify_member.
Qed.

End classification.

(** ** Batch planning *)

Section batch_planning.

Lemma pad_none_replicate fuel (b : list (option Z)) :
  (6 - length b ≤ fuel)%nat →
  pad_none fuel b = b ++ replicate (6 - length b) None.
Proof.
  revert b. induction fuel as [|fuel IH]; intros b Hf; simpl.
  - replace (6 - length b)%nat with 0%nat by lia. by rewrite app_nil_r.
  - destruct (Nat.ltb_spec (length b) 6) as [Hlt|Hge].
    + rewrite IH by (rewrite length_app; simpl; lia).
      rewrite length_app; simpl. rewrite <- app_assoc. f_equal.
      replace (6 - length b)%nat with (S (6 - (length b + 1))) by lia. done.
    + replace (6 - length b)%nat with 0%nat by lia. by rewrite app_nil_r.
Qed.

Lemma batch_at_eq (ids : list Z) i :
  batch_at ids i
  = (Some <$> take 6 (drop i ids))
    ++ replicate (6 - length (take 6 (drop i ids))) None.
Proof.
  unfold batch_at, py_slice. replace (i + 6 - i)%nat with 6%nat by lia.
  rewrite pad_none_replicate by lia. by rewrite length_fmap.
Qed.

Lemma batch_at_length (ids : list Z) i : length (batch_at ids i) = 6%nat.
Proof.
  rewrite batch_at_eq, length_app, length_fmap, length_replicate, length_take.
  lia.
Qed.

Lemma not_none_app (a b : list (option Z)) :
  not_none (a ++ b) = not_none a ++ not_none b.
Proof. unfold not_none. apply omap_app. Qed.

Lemma not_none_some (l : list Z) : not_none (Some <$> l) = l.
Proof. unfold not_none. induction l; simpl; [done|]. by f_equal. Qed.

Lemma not_none_replicate n : not_none (replicate n None) = [].
Proof. unfold not_none. induction n; simpl; done. Qed.

Lemma batch_at_not_none (ids : list Z) i :
  not_none (batch_at ids i) = take 6 (drop i ids).
Proof.
  rewrite batch_at_eq, not_none_app, not_none_some, not_none_replicate.
  apply app_nil_r.
Qed.

Lemma range_aux_length fuel start stop :
  (stop - start ≤ fuel)%nat →
  length (range_aux fuel start stop 6) = ((stop - start + 5) / 6)%nat.
Proof.
  revert start. induction fuel as [|fuel IH]; intros start Hf; simpl.
  - replace (stop - start)%nat with 0%nat by lia. done.
  - destruct (Nat.ltb_spec start stop) as [Hlt|Hge].
    + simpl. rewrite IH by lia.
      destruct (decide (stop - start < 6)%nat) as [Hs|Hs].
      * rewrite (Nat.div_small (stop - (start + 6) + 5) 6) by lia.
        apply (Nat.div_unique _ 6 1 (stop - start + 5 - 6)); lia.
      * pose proof (Nat.div_mod_eq (stop - (start + 6) + 5) 6) as Hdm.
        pose proof (Nat.mod_upper_bound (stop - (start + 6) + 5) 6) as Hub.
        apply (Nat.div_unique _ 6 _ ((stop - (start + 6) + 5) mod 6)); lia.
    + replace (stop - start)%nat with 0%nat by lia. done.
Qed.

Lemma range_aux_concat (ids : list Z) fuel start :
  (length ids - start ≤ fuel)%nat →
  concat (not_none <$> (batch_at ids <$> range_aux fuel start (length ids) 6))
  = drop start ids.
Proof.
  revert start. induction fuel as [|fuel IH]; intros start Hf; simpl.
  - rewrite drop_ge by lia. done.
  - destruct (Nat.ltb_spec start (length ids)) as [Hlt|Hge].
    + simpl. rewrite IH by lia. rewrite batch_at_not_none.
      transitivity (take 6 (drop start ids) ++ drop 6 (drop start ids));
        [by rewrite drop_drop|apply take_drop].
    + rewrite drop_ge by lia. done.
Qed.

Lemma batches_concat (ids : list Z) : concat (not_none <$> batches ids) = ids.
Proof. unfold batches, py_range. rewrite range_aux_concat by lia. done. Qed.

Lemma range_aux_lookup fuel start stop k :
  (stop - start ≤ fuel)%nat →
  range_aux fuel start stop 6 !! k
  = if decide (start + 6 * k < stop)%nat then Some (start + 6 * k)%nat else None.
Proof.
  revert start k. induction fuel as [|fuel IH]; intros start k Hf;
    cbn [range_aux].
  - rewrite lookup_nil. destruct (decide (start + 6 * k < stop)%nat); [lia|done].
  - destruct (Nat.ltb_spec start stop) as [Hlt|Hge].
    + destruct k as [|k].
      * change ((start :: range_aux fuel (start + 6) stop 6) !! 0%nat) with (Some start).
        destruct (decide (start + 6 * 0 < stop)%nat); [|lia].
        f_equal. lia.
      * change ((start :: range_aux fuel (start + 6) stop 6) !! S k) with (range_aux fuel (start + 6) stop 6 !! k). rewrite IH by lia.
        destruct (decide (start + 6 + 6 * k < stop)%nat),
          (decide (start + 6 * S k < stop)%nat); try lia; [f_equal; lia|done].
    + rewrite lookup_nil.
      destruct (decide (start + 6 * k < stop)%nat); [lia|done].
Qed.

Lemma batches_lookup (ids : list Z) k :
  batches ids !! k
  = if decide (6 * k < length ids)%nat then Some (batch_at ids (6 * k)) else None.
Proof.
  unfold batches, py_range. rewrite list_lookup_fmap, range_aux_lookup by lia.
  change (0 + 6 * k)%nat with (6 * k)%nat.
  by destruct (decide (6 * k < length ids)%nat).
Qed.

(** C2, primary batch planning.  For every list of ids the loop over
    [range(0, len(ids), 6)] forms [ceil(len(ids) / 6)] batches, every batch
    has exactly six slots, and the slots that are not [None], taken batch
    after batch, are the list of ids again.  The batches are the consecutive
    windows of six ids: batch [k] exists exactly when [6 * k] is below the
    number of ids, and holds the ids at positions [6 * k] to [6 * k + 5] in
    order, followed by as many [None] as ids are missing; every batch but
    the last holds six ids and no [None], and the last one holds the ids
    that remain, at least one, with the [None] padding behind them. *)
Theorem batches_plan (ids : list Z) :
  length (batches ids) = ((length ids + 5) / 6)%nat ∧
  (6 * (length (batches ids) - 1) < length ids ∨ ids = [])%nat ∧
  (length ids ≤ 6 * length (batches ids))%nat ∧
  Forall (λ b, length b = 6%nat) (batches ids) ∧
  concat (not_none <$> batches ids) = ids ∧
  (∀ k, batches ids !! k
        = if decide (6 * k < length ids)%nat
          then Some ((Some <$> take 6 (drop (6 * k) ids))
                     ++ replicate (6 - length (take 6 (drop (6 * k) ids))) None)
          else None) ∧
  (∀ k, (S k < length (batches ids))%nat →
        length (take 6 (drop (6 * k) ids)) = 6%nat ∧
        batches ids !! k = Some (Some <$> take 6 (drop (6 * k) ids))) ∧
  (∀ k, S k = length (batches ids) →
        let rest := drop (6 * k) ids in
        rest ≠ [] ∧ (length rest ≤ 6)%nat ∧
        batches ids !! k = Some ((Some <$> rest) ++ replicate (6 - length rest) None)).
Proof.
  assert (Hlen : length (batches ids) = ((length ids + 5) / 6)%nat).
  { unfold batches, py_range. rewrite length_fmap, range_aux_length by lia.
    by rewrite Nat.sub_0_r. }
  pose proof (Nat.div_mod_eq (length ids + 5) 6) as Hdm.
  pose proof (Nat.mod_upper_bound (length ids + 5) 6) as Hub.
  assert (Hk : ∀ k, batches ids !! k
        = if decide (6 * k < length ids)%nat
          then Some ((Some <$> take 6 (drop (6 * k) ids))
                     ++ replicate (6 - length (take 6 (drop (6 * k) ids))) None)
          else None).
  { intros k. rewrite batches_lookup.
    destruct (decide (6 * k < length ids)%nat); [|done].
    by rewrite batch_at_eq. }
  split_and!.
  - done.
  - destruct ids as [|x ids]; [by right|left]. rewrite Hlen. simpl in *. lia.
  - rewrite Hlen. lia.
  - unfold batches. apply Forall_fmap, Forall_forall. intros i _.
    apply batch_at_length.
  - apply batches_concat.
  - done.
  - intros k Hlt. rewrite Hlen in Hlt.
    assert (length (take 6 (drop (6 * k) ids)) = 6%nat) as Hfull.
    { rewrite length_take, length_drop. lia. }
    split; [done|]. rewrite Hk, Hfull.
    destruct (decide (6 * k < length ids)%nat); [|lia].
    by rewrite app_nil_r.
  - intros k Hlast rest. rewrite Hlen in Hlast.
    assert (length rest ≤ 6 ∧ 0 < length rest)%nat as [Hle Hpos].
    { unfold rest. rewrite length_drop. lia. }
    split_and!.
    + intros Hnil. rewrite Hnil in Hpos. simpl in Hpos. lia.
    + done.
    + rewrite Hk. destruct (decide (6 * k < length ids)%nat) as [|Hn].
      * by rewrite (take_ge rest) by lia.
      * unfold rest in Hpos. rewrite length_drop in Hpos. lia.
Qed.

(** Seven ids: a full window, then the seventh id with five [None] behind
    it. *)
Lemma batches_plan_witness :
  batches [1; 2; 3; 4; 5; 6; 7] !! 0%nat
    = Some (Some <$> [1; 2; 3; 4; 5; 6]) ∧
  batches [1; 2; 3; 4; 5; 6; 7] !! 1%nat
    = Some [Some 7; None; None; None; None; None].
Proof.
  pose proof (batches_plan [1; 2; 3; 4; 5; 6; 7])
    as (_ & _ & _ & _ & _ & _ & Hfull & Hlast).
  split.
  - apply (Hfull 0%nat). vm_compute. lia.
  - apply (Hlast 1%nat). reflexivity.
Defined.

End batch_planning.

(** ** Back side order *)

(** C3, the back side order.  On a batch of six slots [back_order] sends
    the slot order 0,1,2,3,4,5 to 2,1,0,5,4,3, each row of three reversed
    and the rows kept in place, and applying it twice gives the batch back;
    this holds for every batch that planning forms. *)
Theorem back_order_involution :
  back_order [0; 1; 2; 3; 4; 5]%nat = Ok [2; 1; 0; 5; 4; 3]%nat ∧
  (∀ (A : Type) (b0 b1 b2 b3 b4 b5 : A),
     back_order [b0; b1; b2; b3; b4; b5] = Ok [b2; b1; b0; b5; b4; b3] ∧
     (b' ← back_order [b0; b1; b2; b3; b4; b5]; back_order b')
     = Ok [b0; b1; b2; b3; b4; b5]) ∧
  (∀ (ids : list Z) (batch : list (option Z)),
     batch ∈ batches ids →
     ∃ back, back_order batch = Ok back ∧ length back = 6%nat ∧
             back_order back = Ok batch).
Proof.
  split_and!.
  - reflexivity.
  - intros. split; reflexivity.
  - intros ids batch Hin.
    assert (length batch = 6%nat) as Hlen.
    { unfold batches in Hin. apply list_elem_of_fmap in Hin as (i & -> & _).
      apply batch_at_length. }
    destruct batch as [|b0 [|b1 [|b2 [|b3 [|b4 [|b5 [|]]]]]]]; try discriminate.
    eexists. split_and!; reflexivity.
Qed.

(** The batch of the single id 7. *)
Lemma back_order_involution_witness :
  ∃ back, back_order (batch_at [7] 0) = Ok back ∧ length back = 6%nat ∧
          back_order back = Ok (batch_at [7] 0).
Proof.
  apply (proj2 (proj2 back_order_involution) [7] (batch_at [7] 0)).
  vm_compute. left.
Defined.

(** ** Rendering a sheet *)

Section rendering.

Lemma bind_ok {A B} (m : result A) (k : A → result B) b :
  (m ≫= k) = Ok b ↔ ∃ a, m = Ok a ∧ k a = Ok b.
Proof.
  destruct m as [a|err]; simpl.
  - split; [eauto|]. by intros (a' & [= <-] & ?).
  - split; [done|]. by intros (a' & [=] & ?).
Qed.

Lemma bind_err {A B} (m : result A) (k : A → result B) :
  is_err m → is_err (m ≫= k).
Proof. intros [err ->]. by exists err. Qed.

Lemma result_cases {A} (m : result A) : is_ok m ∨ is_err m.
Proof. destruct m as [a|err]; [left|right]; eexists; done. Qed.

Lemma ok_not_err {A} (m : result A) : is_ok m → is_err m → False.
Proof. intros [a ->] [err [=]]. Qed.

Lemma grid_loop_ok e ex idx cells ops hc ops' hc' :
  grid_loop e ex idx cells ops hc = Ok (ops', hc') →
  hc' = hc || existsb cell_full cells ∧
  omap op_image ops' = omap op_image ops ++ omap cell_page cells.
Proof.
  revert idx ops hc.
  induction cells as [|[[g|] [p|]] cells IH]; intros idx ops hc; simpl.
  - intros [= <- <-]. by rewrite orb_false_r, app_nil_r.
  - intros (pages & _ & (first & _ & H)%bind_ok)%bind_ok.
    destruct (pixmap_ok e p); [|done].
    destruct (draw_image_ok e p); [|done].
    apply IH in H as [-> ->]. split; [by rewrite orb_true_r|].
    rewrite !omap_app. simpl. by rewrite !app_nil_r, <- app_assoc.
  - intros H. by apply IH in H.
  - intros H. by apply IH in H.
  - intros H. by apply IH in H.
Qed.

Lemma create_grid_page_ok e ex nums idxs title s hc :
  create_grid_page e ex nums idxs title = Ok (s, hc) →
  hc = existsb cell_full (zip nums idxs) ∧
  sheet_images s = omap cell_page (zip nums idxs).
Proof.
  unfold create_grid_page. intros ([ops hc'] & H & [= <- <-])%bind_ok.
  apply grid_loop_ok in H as [-> H]. split; [done|].
  simpl. rewrite H. by destruct (decide (title = "")).
Qed.

Lemma grid_loop_err e ex idx cells ops hc i g p :
  cells !! i = Some (Some g, Some p) →
  pixmap_ok e p = false ∨ draw_image_ok e p = false →
  is_err (grid_loop e ex idx cells ops hc).
Proof.
  intros Hi Hbad. revert i idx ops hc Hi.
  induction cells as [|c cells IH]; intros i idx ops hc Hi; [done|].
  destruct i as [|i]; simpl in Hi.
  - injection Hi as ->. simpl.
    destruct (dict_get ex g) as [pages|err]; simpl; [|by eexists].
    destruct (list_get pages 0) as [first|err]; simpl; [|by eexists].
    destruct (pixmap_ok e p) eqn:E1; [|by eexists].
    destruct (draw_image_ok e p) eqn:E2; [|by eexists].
    by destruct Hbad.
  - destruct c as [[g'|] [p'|]]; simpl; eauto.
    destruct (dict_get ex g') as [pages|err]; simpl; [|by eexists].
    destruct (list_get pages 0) as [first|err]; simpl; [|by eexists].
    destruct (pixmap_ok e p'); [|by eexists].
    destruct (draw_image_ok e p'); [|by eexists].
    eauto.
Qed.

Lemma grid_loop_total e ex idx cells ops hc :
  renders_ok e →
  (∀ g p, (Some g, Some p) ∈ cells → ∃ l, ex !! g = Some l ∧ l ≠ []) →
  is_ok (grid_loop e ex idx cells ops hc).
Proof.
  intros Hr. revert idx ops hc.
  induction cells as [|c cells IH]; intros idx ops hc Hc; [by eexists|].
  assert (∀ g p, (Some g, Some p) ∈ cells → ∃ l, ex !! g = Some l ∧ l ≠ [])
    as Hc' by (intros g p ?; apply (Hc g p); by right).
  destruct c as [[g|] [p|]]; simpl; eauto.
  destruct (Hc g p) as (l & Hl & Hne); [by left|].
  unfold dict_get. rewrite Hl. simpl.
  destruct l as [|first l]; [done|]. simpl.
  destruct (Hr p) as [-> ->]. eauto.
Qed.

Lemma grid_loop_env e e' ex idx cells ops hc :
  pixmap_ok e = pixmap_ok e' → draw_image_ok e = draw_image_ok e' →
  grid_loop e ex idx cells ops hc = grid_loop e' ex idx cells ops hc.
Proof.
  intros H1 H2. revert idx ops hc.
  induction cells as [|[[g|] [p|]] cells IH]; intros idx ops hc; simpl; auto.
  rewrite H1, H2. destruct (dict_get ex g); simpl; [|done].
  destruct (list_get a 0); simpl; [|done].
  destruct (pixmap_ok e' p), (draw_image_ok e' p); auto.
Qed.

Lemma for_each_fmap {A B} (f : A → result B) (g : A → B) l :
  (∀ x, x ∈ l → f x = Ok (g x)) → for_each f l = Ok (g <$> l).
Proof.
  induction l as [|x l IH]; intros Hf; [done|]. simpl.
  rewrite (Hf x) by left. simpl. rewrite IH; [done|].
  intros y Hy. apply Hf. by right.
Qed.

Lemma first_page_resolve ex x :
  groups_nonempty ex → first_page ex x = Ok (resolve ex 0 x).
Proof.
  intros Hne. destruct x as [g|]; [|done]. unfold first_page, resolve, pages_of.
  destruct (truthy (Some g)); [|done]. simpl. unfold dict_get.
  destruct (ex !! g) as [l|] eqn:E.
  - rewrite bool_decide_eq_true_2 by eauto. simpl.
    destruct l as [|p l]; [by destruct (Hne g [])|done].
  - rewrite bool_decide_eq_false_2; [done|]. by intros [? ?].
Qed.

Lemma second_page_resolve ex x : second_page ex x = Ok (resolve ex 1 x).
Proof.
  destruct x as [g|]; [|done]. unfold second_page, resolve, pages_of.
  destruct (truthy (Some g)); [|done]. simpl. unfold dict_get.
  destruct (ex !! g) as [l|] eqn:E.
  - rewrite bool_decide_eq_true_2 by eauto. simpl.
    destruct l as [|p [|p' l]]; done.
  - rewrite bool_decide_eq_false_2; [done|]. by intros [? ?].
Qed.

Lemma third_page_resolve ex x :
  (∀ g, x = Some g → is_Some (ex !! g)) →
  third_page ex x = Ok (resolve ex 2 x).
Proof.
  intros Hk. destruct x as [g|]; [|done]. unfold third_page, resolve, pages_of.
  destruct (truthy (Some g)); [|done]. unfold dict_get.
  destruct (Hk g eq_refl) as [l ->]. simpl.
  destruct l as [|p [|p' [|p'' l]]]; done.
Qed.

Lemma resolve_Some ex r x p :
  resolve ex r x = Some p →
  ∃ g l, x = Some g ∧ g ≠ 0 ∧ ex !! g = Some l ∧ l !! r = Some p.
Proof.
  destruct x as [g|]; [|done]. unfold resolve, pages_of. simpl.
  case_bool_decide; [|done]. destruct (ex !! g) as [l|] eqn:E; [|done].
  simpl. intros Hp. exists g, l. done.
Qed.

Lemma zip_resolve_full ex r (nums : list (option Z)) g p :
  (Some g, Some p) ∈ zip nums (resolve ex r <$> nums) →
  g ≠ 0 ∧ ∃ l, ex !! g = Some l ∧ l !! r = Some p.
Proof.
  intros (i & Hi)%list_elem_of_lookup.
  apply lookup_zip_with_Some in Hi as (x & y & [= <- <-] & Hx & Hy).
  rewrite list_lookup_fmap, Hx in Hy. injection Hy as Hy.
  apply (resolve_Some ex r (Some g)) in Hy as (g' & l & [= <-] & ? & ? & ?).
  eauto.
Qed.

Lemma create_grid_page_total e ex r nums title :
  renders_ok e →
  is_ok (create_grid_page e ex nums (resolve ex r <$> nums) title).
Proof.
  intros Hr. unfold create_grid_page.
  edestruct (grid_loop_total e ex 0 (zip nums (resolve ex r <$> nums)))
    as [[ops hc] ->]; [done| |by eexists].
  intros g p (_ & l & Hl & Hp)%zip_resolve_full. exists l. split; [done|].
  by destruct l.
Qed.

Lemma create_grid_page_env e e' ex nums idxs title :
  pixmap_ok e = pixmap_ok e' → draw_image_ok e = draw_image_ok e' →
  create_grid_page e ex nums idxs title
  = create_grid_page e' ex nums idxs title.
Proof.
  intros H1 H2. unfold create_grid_page. by rewrite (grid_loop_env e e').
Qed.

Lemma back_order_total {A} (b : list A) :
  length b = 6%nat → ∃ bo, back_order b = Ok bo ∧ bo ≡ₚ b.
Proof.
  intros Hlen.
  destruct b as [|b0 [|b1 [|b2 [|b3 [|b4 [|b5 [|]]]]]]]; try discriminate.
  eexists. split; [reflexivity|].
  apply (Permutation_app (l := [b2; b1; b0]) (l' := [b0; b1; b2])
           (m := [b5; b4; b3]) (m' := [b3; b4; b5]));
    apply (reverse_Permutation [_; _; _]).
Qed.

End rendering.

(** ** Assembling the output *)

Section assembly.

Lemma for_each_ok {A B} (f : A → result B) (g : A → B) l l' :
  (∀ x y, f x = Ok y → y = g x) → for_each f l = Ok l' → l' = g <$> l.
Proof.
  intros Hf. revert l'. induction l as [|x l IH]; intros l'; simpl.
  - by intros [= <-].
  - intros (y & Hy & (ys & Hys & [= <-])%bind_ok)%bind_ok.
    by rewrite (Hf _ _ Hy), (IH _ Hys).
Qed.

Lemma first_page_ok ex x y : first_page ex x = Ok y → y = resolve ex 0 x.
Proof.
  destruct x as [g|]; [|by intros [= <-]].
  unfold first_page, resolve, pages_of.
  destruct (truthy (Some g)); [|by intros [= <-]]. simpl. unfold dict_get.
  destruct (ex !! g) as [l|] eqn:E.
  - rewrite bool_decide_eq_true_2 by eauto. simpl.
    destruct l as [|p l]; [done|]. by intros [= <-].
  - rewrite bool_decide_eq_false_2; [by intros [= <-]|]. by intros [? ?].
Qed.

Lemma second_page_ok ex x y : second_page ex x = Ok y → y = resolve ex 1 x.
Proof. rewrite second_page_resolve. by intros [= <-]. Qed.

Lemma third_page_ok ex x y : third_page ex x = Ok y → y = resolve ex 2 x.
Proof.
  destruct x as [g|]; [|by intros [= <-]].
  unfold third_page, resolve, pages_of.
  destruct (truthy (Some g)); [|by intros [= <-]]. unfold dict_get.
  destruct (ex !! g) as [l|] eqn:E; [|done]. simpl.
  destruct l as [|p [|p' [|p'' l]]]; by intros [= <-].
Qed.

Lemma create_grid_page_ranked e ex r nums title s hc :
  (r ≤ 2)%nat →
  create_grid_page e ex nums (resolve ex r <$> nums) title = Ok (s, hc) →
  shows_ranked ex s.
Proof.
  intros Hr [_ Him]%create_grid_page_ok p Hp. rewrite Him in Hp.
  apply list_elem_of_omap in Hp as ([[g|] [p'|]] & Hin & [= ->]).
  apply zip_resolve_full in Hin as (? & l & ? & ?). eauto 10.
Qed.

Lemma blank_ranked ex : shows_ranked ex BlankSheet.
Proof. intros p Hp. by apply elem_of_nil in Hp. Qed.

Lemma try_add_two_sheets e w s1 s2 :
  ∃ k, sheets (try_add_two e w s1 s2) = sheets w ++ take k [s1; s2].
Proof.
  unfold try_add_two, add_page. destruct (add_page_ok e (attempts w)); simpl.
  - destruct (add_page_ok e (S (attempts w))); simpl.
    + exists 2%nat. by rewrite <- app_assoc.
    + by exists 1%nat.
  - exists 0%nat. by rewrite app_nil_r.
Qed.

Lemma try_add_two_all e w s1 s2 :
  (∀ n, add_page_ok e n = true) →
  sheets (try_add_two e w s1 s2) = sheets w ++ [s1; s2].
Proof.
  intros Ha. unfold try_add_two, add_page. rewrite !Ha. simpl.
  by rewrite <- app_assoc.
Qed.

Lemma try_add_two_ranked e ex w s1 s2 :
  Forall (shows_ranked ex) (sheets w) →
  shows_ranked ex s1 → shows_ranked ex s2 →
  Forall (shows_ranked ex) (sheets (try_add_two e w s1 s2)).
Proof.
  intros Hw H1 H2. destruct (try_add_two_sheets e w s1 s2) as [k ->].
  apply Forall_app. split; [done|]. apply Forall_take. by repeat constructor.
Qed.

(** The loop body of the primary batches, with the slots resolved. *)
Lemma primary_step_ok e ex n w batch w' :
  primary_step e ex n w batch = Ok w' →
  ∃ front hc0 bo back hc,
    create_grid_page e ex batch (resolve ex 0 <$> batch)
      ("Batch " +:+ pretty n +:+ " - First Pages") = Ok (front, hc0) ∧
    back_order batch = Ok bo ∧
    create_grid_page e ex bo (resolve ex 1 <$> bo)
      ("Batch " +:+ pretty n +:+ " - Second Pages") = Ok (back, hc) ∧
    w' = try_add_two e w front (if hc then back else BlankSheet).
Proof.
  unfold primary_step.
  intros (idx0 & H0%(for_each_ok _ _ _ _ (first_page_ok ex)) & H)%bind_ok.
  apply bind_ok in H as ([front hc0] & Hf & H).
  apply bind_ok in H as (bo & Hbo & H).
  apply bind_ok in H as
    (idx1 & H1%(for_each_ok _ _ _ _ (second_page_ok ex)) & H).
  apply bind_ok in H as ([back hc] & Hb & [= <-]). subst.
  by exists front, hc0, bo, back, hc.
Qed.

Lemma third_step_ok e ex w batch w' :
  third_step e ex w batch = Ok w' →
  ∃ third hc,
    create_grid_page e ex batch (resolve ex 2 <$> batch)
      ("Third Pages - Exams " +:+ list_repr (not_none batch))
    = Ok (third, hc) ∧
    w' = try_add_two e w third BlankSheet.
Proof.
  unfold third_step.
  intros (idx & H0%(for_each_ok _ _ _ _ (third_page_ok ex)) & H)%bind_ok.
  apply bind_ok in H as ([third hc] & Ht & [= <-]). subst.
  by exists third, hc.
Qed.

Lemma primary_loop_ranked e ex n w bs w' :
  primary_loop e ex n w bs = Ok w' →
  Forall (shows_ranked ex) (sheets w) → Forall (shows_ranked ex) (sheets w').
Proof.
  revert n w. induction bs as [|b bs IH]; intros n w; simpl.
  - by intros [= <-].
  - intros (w1 & Hs & Hl)%bind_ok Hw. apply (IH _ _ Hl).
    apply primary_step_ok in Hs as (front & hc0 & bo & back & hc & Hf & _ & Hb & ->).
    apply (create_grid_page_ranked _ _ 0) in Hf; [|lia].
    apply (create_grid_page_ranked _ _ 1) in Hb; [|lia].
    apply try_add_two_ranked; [done..|].
    destruct hc; [done|apply blank_ranked].
Qed.

Lemma third_loop_ranked e ex w bs w' :
  third_loop e ex w bs = Ok w' →
  Forall (shows_ranked ex) (sheets w) → Forall (shows_ranked ex) (sheets w').
Proof.
  revert w. induction bs as [|b bs IH]; intros w; simpl.
  - by intros [= <-].
  - intros (w1 & Hs & Hl)%bind_ok Hw. apply (IH _ Hl).
    apply third_step_ok in Hs as (third & hc & Ht & ->).
    apply (create_grid_page_ranked _ _ 2) in Ht; [|lia].
    apply try_add_two_ranked; [done..|apply blank_ranked].
Qed.

Lemma layout_ranked e ex out :
  layout e ex = Ok out → Forall (shows_ranked ex) out.
Proof.
  unfold layout. intros (w & Hp & (third & _ & H)%bind_ok)%bind_ok.
  apply bind_ok in H as (w' & Hw' & [= <-]).
  apply primary_loop_ranked in Hp; [|by constructor].
  destruct (decide (third = [])).
  - by injection Hw' as <-.
  - by eapply third_loop_ranked.
Qed.

End assembly.

(** ** The groups that classification builds *)

Section groups.

Lemma classify_step_nonempty st n text :
  groups_nonempty (exams st) → groups_nonempty (exams (classify_step st n text)).
Proof.
  intros Hne. unfold classify_step.
  assert (∀ g, groups_nonempty
            (<[g := pages_of (exams st) g ++ [n]]> (exams st))) as Hins.
  { intros g g' l. destruct (decide (g = g')) as [->|Hd].
    - rewrite lookup_insert_eq. intros [= <-]. by destruct (pages_of _ _).
    - rewrite lookup_insert_ne by done. apply Hne. }
  destruct (Re.teza_id text); [apply Hins|].
  destruct (current_exam st); [apply Hins|done].
Qed.

Lemma classify_from_nonempty st n pages :
  groups_nonempty (exams st) →
  groups_nonempty (exams (classify_from st n pages)).
Proof.
  revert st n. induction pages as [|t rest IH]; intros st n Hne; [done|].
  simpl. apply IH, classify_step_nonempty, Hne.
Qed.

Lemma classify_nonempty pages : groups_nonempty (exams (classify pages)).
Proof.
  apply classify_from_nonempty. intros g l. simpl. by rewrite lookup_empty.
Qed.

(** A page belongs to one group only. *)
Lemma classify_disjoint pages g g' l l' p :
  exams (classify pages) !! g = Some l →
  exams (classify pages) !! g' = Some l' →
  p ∈ l → p ∈ l' → g = g'.
Proof.
  intros Hl Hl' Hp Hp'.
  assert (active pages p = Some g) as H1.
  { apply (classify_member pages g p). unfold pages_of. by rewrite Hl. }
  assert (active pages p = Some g') as H2.
  { apply (classify_member pages g' p). unfold pages_of. by rewrite Hl'. }
  congruence.
Qed.

Lemma active_from_marker cur pages i text g :
  pages !! i = Some text → Re.teza_id text = Some g →
  active_from cur pages i = Some g.
Proof.
  revert cur i. induction pages as [|t rest IH]; intros cur i Hi Hg; [done|].
  destruct i as [|i]; simpl in *.
  - injection Hi as ->. by rewrite Hg.
  - by apply IH.
Qed.

Lemma elem_of_sorted_keys (ex : gmap Z (list nat)) g :
  g ∈ sorted_keys ex ↔ is_Some (ex !! g).
Proof.
  unfold sorted_keys. rewrite merge_sort_Permutation.
  rewrite list_elem_of_fmap. split.
  - intros ([g' l] & -> & Hin%elem_of_map_to_list). eauto.
  - intros [l Hl]. exists (g, l). split; [done|]. by apply elem_of_map_to_list.
Qed.

Lemma batch_at_elem (ids : list Z) i g :
  Some g ∈ batch_at ids i → g ∈ ids.
Proof.
  rewrite batch_at_eq, elem_of_app. intros [H|H].
  - apply list_elem_of_fmap in H as (g' & [= ->] & H).
    apply elem_of_take in H as (j & H & _). rewrite lookup_drop in H.
    by eapply list_elem_of_lookup_2.
  - by apply elem_of_replicate in H as [[=] _].
Qed.

Lemma batches_elem (ids : list Z) b g :
  b ∈ batches ids → Some g ∈ b → g ∈ ids.
Proof.
  unfold batches. intros (i & -> & _)%list_elem_of_fmap. apply batch_at_elem.
Qed.

Lemma batches_length (ids : list Z) b : b ∈ batches ids → length b = 6%nat.
Proof.
  unfold batches. intros (i & -> & _)%list_elem_of_fmap. apply batch_at_length.
Qed.

Lemma classify_step_fresh st n text :
  groups_fresh st n → groups_fresh (classify_step st n text) (S n).
Proof.
  intros Hf.
  assert (groups_fresh st (S n)) as Hf'.
  { intros g l Hl. destruct (Hf g l Hl) as [? Hlt]. split; [done|].
    intros p Hp. specialize (Hlt p Hp). lia. }
  assert (∀ g cur, groups_fresh
            (ParseState (<[g := pages_of (exams st) g ++ [n]]> (exams st)) cur)
            (S n)) as Hins.
  { intros g cur g' l. simpl. destruct (decide (g = g')) as [->|Hd].
    - rewrite lookup_insert_eq. intros [= <-]. unfold pages_of.
      destruct (exams st !! g') as [l|] eqn:E; simpl.
      + destruct (Hf g' l E) as [Hnd Hlt]. split.
        * apply NoDup_app. split_and!; [done| |apply NoDup_singleton].
          intros p Hp ->%list_elem_of_singleton. specialize (Hlt n Hp). lia.
        * intros p [Hp| ->%list_elem_of_singleton]%elem_of_app; [|lia].
          specialize (Hlt p Hp). lia.
      + split; [apply NoDup_singleton|].
        intros p ->%list_elem_of_singleton. lia.
    - rewrite lookup_insert_ne by done. apply Hf'. }
  unfold classify_step. destruct (Re.teza_id text); [apply Hins|].
  destruct (current_exam st); [apply Hins|done].
Qed.

Lemma classify_from_fresh st n pages :
  groups_fresh st n →
  groups_fresh (classify_from st n pages) (n + length pages).
Proof.
  revert st n. induction pages as [|t rest IH]; intros st n Hf; simpl.
  - by rewrite Nat.add_0_r.
  - replace (n + S (length rest))%nat with (S n + length rest)%nat by lia.
    apply IH, classify_step_fresh, Hf.
Qed.

Lemma classify_NoDup pages g l :
  exams (classify pages) !! g = Some l → NoDup l.
Proof.
  intros Hl. eapply (classify_from_fresh (ParseState ∅ None) 0 pages); [|done].
  intros g' l'. simpl. by rewrite lookup_empty.
Qed.


End groups.

(** ** Runs: totality, failures of rendering, failures of appending *)

Section runs.

Lemma primary_step_env e ex n w batch w' :
  primary_step e ex n w batch = Ok w' →
  ∃ s1 s2, w' = try_add_two e w s1 s2 ∧
    ∀ e' w0, pixmap_ok e = pixmap_ok e' → draw_image_ok e = draw_image_ok e' →
      primary_step e' ex n w0 batch = Ok (try_add_two e' w0 s1 s2).
Proof.
  unfold primary_step. intros (idx0 & H0 & H)%bind_ok.
  apply bind_ok in H as ([front hc0] & Hf & H).
  apply bind_ok in H as (bo & Hbo & H).
  apply bind_ok in H as (idx1 & H1 & H).
  apply bind_ok in H as ([back hc] & Hb & [= <-]).
  exists front, (if hc then back else create_blank_page). split; [done|].
  intros e' w0 E1 E2. rewrite H0. simpl.
  rewrite <- (create_grid_page_env e e') by done. rewrite Hf. simpl.
  rewrite Hbo. simpl. rewrite H1. simpl.
  rewrite <- (create_grid_page_env e e') by done. rewrite Hb. done.
Qed.

Lemma third_step_env e ex w batch w' :
  third_step e ex w batch = Ok w' →
  ∃ s1, w' = try_add_two e w s1 BlankSheet ∧
    ∀ e' w0, pixmap_ok e = pixmap_ok e' → draw_image_ok e = draw_image_ok e' →
      third_step e' ex w0 batch = Ok (try_add_two e' w0 s1 BlankSheet).
Proof.
  unfold third_step. intros (idx & H0 & H)%bind_ok.
  apply bind_ok in H as ([third hc] & Ht & [= <-]).
  exists third. split; [done|].
  intros e' w0 E1 E2. rewrite H0. simpl.
  rewrite <- (create_grid_page_env e e') by done. rewrite Ht. done.
Qed.

Lemma try_add_two_sublist e w w0 s1 s2 :
  sheets w `sublist_of` sheets w0 →
  sheets (try_add_two e w s1 s2)
    `sublist_of` sheets (try_add_two (appends_ok e) w0 s1 s2).
Proof.
  intros Hw. destruct (try_add_two_sheets e w s1 s2) as [k ->].
  rewrite try_add_two_all by done.
  apply sublist_app; [done|apply sublist_take].
Qed.

Lemma primary_loop_sublist e ex n w w0 bs w' :
  primary_loop e ex n w bs = Ok w' →
  sheets w `sublist_of` sheets w0 →
  ∃ w0', primary_loop (appends_ok e) ex n w0 bs = Ok w0' ∧
         sheets w' `sublist_of` sheets w0'.
Proof.
  revert n w w0. induction bs as [|b bs IH]; intros n w w0; simpl.
  - intros [= <-] Hw. by exists w0.
  - intros (w1 & Hs & Hl)%bind_ok Hw.
    apply primary_step_env in Hs as (s1 & s2 & -> & He).
    rewrite (He (appends_ok e) w0) by done. simpl.
    apply (IH _ _ _ Hl). by apply try_add_two_sublist.
Qed.

Lemma third_loop_sublist e ex w w0 bs w' :
  third_loop e ex w bs = Ok w' →
  sheets w `sublist_of` sheets w0 →
  ∃ w0', third_loop (appends_ok e) ex w0 bs = Ok w0' ∧
         sheets w' `sublist_of` sheets w0'.
Proof.
  revert w w0. induction bs as [|b bs IH]; intros w w0; simpl.
  - intros [= <-] Hw. by exists w0.
  - intros (w1 & Hs & Hl)%bind_ok Hw.
    apply third_step_env in Hs as (s1 & -> & He).
    rewrite (He (appends_ok e) w0) by done. simpl.
    apply (IH _ _ Hl). by apply try_add_two_sublist.
Qed.

Lemma layout_sublist e ex out :
  layout e ex = Ok out →
  ∃ out', layout (appends_ok e) ex = Ok out' ∧ out `sublist_of` out'.
Proof.
  unfold layout. intros (w & Hp & (third & Ht & H)%bind_ok)%bind_ok.
  apply bind_ok in H as (w' & Hw' & [= <-]).
  destruct (primary_loop_sublist _ _ _ _ (Writer [] 0) _ _ Hp) as (w0 & -> & Hsub);
    [done|].
  simpl. rewrite Ht. simpl. destruct (decide (third = [])).
  - injection Hw' as <-. simpl. by exists (sheets w0).
  - destruct (third_loop_sublist _ _ _ w0 _ _ Hw' Hsub) as (w0' & -> & Hsub').
    simpl. by exists (sheets w0').
Qed.

Lemma try_add_two_appended e w s1 s2 prs :
  sheets (try_add_two e w s1 s2)
    ++ appended (add_page_ok e) (attempts (try_add_two e w s1 s2)) prs
  = sheets w ++ appended (add_page_ok e) (attempts w) ((s1, s2) :: prs) ∧
  attempts_after (add_page_ok e) (attempts (try_add_two e w s1 s2)) prs
  = attempts_after (add_page_ok e) (attempts w) ((s1, s2) :: prs).
Proof.
  unfold try_add_two, add_page. cbn [appended attempts_after].
  destruct (add_page_ok e (attempts w)); cbn [fst snd sheets attempts].
  - destruct (add_page_ok e (S (attempts w))); cbn [fst snd sheets attempts];
      by rewrite <- !app_assoc.
  - done.
Qed.

Lemma appended_app ok n (a b : list (sheet * sheet)) :
  appended ok n (a ++ b)
  = appended ok n a ++ appended ok (attempts_after ok n a) b.
Proof.
  revert n. induction a as [|[s1 s2] a IH]; intros n; [done|].
  cbn [app appended attempts_after].
  destruct (ok n); [destruct (ok (S n))|]; by rewrite IH.
Qed.

Lemma appended_all ok n (prs : list (sheet * sheet)) :
  (∀ k, ok k = true) → appended ok n prs = concat (pair_sheets <$> prs).
Proof.
  intros Hok. revert n. induction prs as [|[s1 s2] prs IH]; intros n; [done|].
  cbn [appended]. rewrite !Hok, IH. done.
Qed.

(** The sheets that the loop over the primary batches hands to the writer
    do not depend on the appends; what the writer holds afterwards does. *)
Lemma primary_loop_appended e ex n w bs w' :
  primary_loop e ex n w bs = Ok w' →
  ∃ prs, length prs = length bs ∧
    ∀ e' w0, pixmap_ok e = pixmap_ok e' → draw_image_ok e = draw_image_ok e' →
      ∃ w0', primary_loop e' ex n w0 bs = Ok w0' ∧
        sheets w0' = sheets w0 ++ appended (add_page_ok e') (attempts w0) prs ∧
        attempts w0' = attempts_after (add_page_ok e') (attempts w0) prs.
Proof.
  revert n w. induction bs as [|b bs IH]; intros n w; simpl.
  - intros _. exists []. split; [done|]. intros e' w0 _ _. exists w0.
    split_and!; [done| |done]. cbn [appended]. by rewrite app_nil_r.
  - intros (w1 & Hs & Hl)%bind_ok.
    apply primary_step_env in Hs as (s1 & s2 & -> & He).
    apply IH in Hl as (prs & Hlen & Hprs).
    exists ((s1, s2) :: prs). split; [simpl; by rewrite Hlen|].
    intros e' w0 E1 E2. rewrite (He e' w0 E1 E2). simpl.
    destruct (Hprs e' (try_add_two e' w0 s1 s2) E1 E2) as (w0' & Hw0' & Hsh & Hat).
    exists w0'. split; [done|].
    destruct (try_add_two_appended e' w0 s1 s2 prs) as [H1 H2].
    by rewrite Hsh, Hat, H1, H2.
Qed.

Lemma third_loop_appended e ex w bs w' :
  third_loop e ex w bs = Ok w' →
  ∃ prs, length prs = length bs ∧
    ∀ e' w0, pixmap_ok e = pixmap_ok e' → draw_image_ok e = draw_image_ok e' →
      ∃ w0', third_loop e' ex w0 bs = Ok w0' ∧
        sheets w0' = sheets w0 ++ appended (add_page_ok e') (attempts w0) prs ∧
        attempts w0' = attempts_after (add_page_ok e') (attempts w0) prs.
Proof.
  revert w. induction bs as [|b bs IH]; intros w; simpl.
  - intros _. exists []. split; [done|]. intros e' w0 _ _. exists w0.
    split_and!; [done| |done]. cbn [appended]. by rewrite app_nil_r.
  - intros (w1 & Hs & Hl)%bind_ok.
    apply third_step_env in Hs as (s1 & -> & He).
    apply IH in Hl as (prs & Hlen & Hprs).
    exists ((s1, BlankSheet) :: prs). split; [simpl; by rewrite Hlen|].
    intros e' w0 E1 E2. rewrite (He e' w0 E1 E2). simpl.
    destruct (Hprs e' (try_add_two e' w0 s1 BlankSheet) E1 E2)
      as (w0' & Hw0' & Hsh & Hat).
    exists w0'. split; [done|].
    destruct (try_add_two_appended e' w0 s1 BlankSheet prs) as [H1 H2].
    by rewrite Hsh, Hat, H1, H2.
Qed.

Lemma primary_step_total e ex n w batch :
  renders_ok e → groups_nonempty ex → length batch = 6%nat →
  is_ok (primary_step e ex n w batch).
Proof.
  intros Hr Hne Hlen. unfold primary_step.
  rewrite (for_each_fmap _ (resolve ex 0))
    by (intros; by apply first_page_resolve).
  simpl.
  destruct (create_grid_page_total e ex 0 batch
              ("Batch " +:+ pretty n +:+ " - First Pages") Hr)
    as [[front hc0] ->]. simpl.
  destruct (back_order_total batch Hlen) as (bo & -> & _). simpl.
  rewrite (for_each_fmap _ (resolve ex 1))
    by (intros; by apply second_page_resolve).
  simpl.
  destruct (create_grid_page_total e ex 1 bo
              ("Batch " +:+ pretty n +:+ " - Second Pages") Hr)
    as [[back hc] ->]. simpl.
  by eexists.
Qed.

Lemma primary_loop_total e ex n w bs :
  renders_ok e → groups_nonempty ex →
  Forall (λ b, length b = 6%nat) bs →
  is_ok (primary_loop e ex n w bs).
Proof.
  intros Hr Hne Hbs. revert n w.
  induction Hbs as [|b bs Hb Hbs IH]; intros n w; simpl; [by eexists|].
  destruct (primary_step_total e ex (S n) w b) as [w' ->]; [done..|].
  simpl. apply IH.
Qed.

Lemma third_step_total e ex w batch :
  renders_ok e → (∀ g, Some g ∈ batch → is_Some (ex !! g)) →
  is_ok (third_step e ex w batch).
Proof.
  intros Hr Hk. unfold third_step.
  rewrite (for_each_fmap _ (resolve ex 2)).
  - simpl.
    destruct (create_grid_page_total e ex 2 batch
                ("Third Pages - Exams " +:+ list_repr (not_none batch)) Hr)
      as [[third hc] ->]. simpl.
    by eexists.
  - intros x Hx. apply third_page_resolve. intros g ->. by apply Hk.
Qed.

Lemma third_loop_total e ex w bs :
  renders_ok e →
  Forall (λ b, ∀ g, Some g ∈ b → is_Some (ex !! g)) bs →
  is_ok (third_loop e ex w bs).
Proof.
  intros Hr Hbs. revert w.
  induction Hbs as [|b bs Hb Hbs IH]; intros w; simpl; [by eexists|].
  destruct (third_step_total e ex w b) as [w' ->]; [done..|].
  simpl. apply IH.
Qed.

Lemma third_page_exams_eq ex (ids : list Z) :
  (∀ g, g ∈ ids → is_Some (ex !! g)) →
  third_page_exams ex ids
  = Ok (filter (λ g, (3 ≤ length (pages_of ex g))%nat) ids).
Proof.
  induction ids as [|g ids IH]; intros Hk; [done|]. simpl.
  destruct (Hk g) as [l Hl]; [by left|].
  unfold dict_get. rewrite Hl. simpl.
  rewrite IH by (intros g' ?; apply Hk; by right). simpl.
  assert (pages_of ex g = l) as Hp by (unfold pages_of; by rewrite Hl).
  rewrite filter_cons, Hp.
  destruct (length l) as [|[|[|k]]]; case_decide; try done; exfalso; lia.
Qed.

Lemma layout_total e ex :
  renders_ok e → groups_nonempty ex → is_ok (layout e ex).
Proof.
  intros Hr Hne. unfold layout.
  destruct (primary_loop_total e ex 0 (Writer [] 0) (batches (sorted_keys ex)))
    as [w ->]; [done..| |].
  { apply Forall_forall. intros b. apply batches_length. }
  simpl. rewrite third_page_exams_eq by (intros g; apply elem_of_sorted_keys).
  simpl. case_decide; simpl; [by eexists|].
  edestruct (third_loop_total e ex w) as [w' ->]; [done| |by eexists].
  apply Forall_forall. intros b Hb g Hg.
  apply (batches_elem _ _ _ Hb), list_elem_of_filter in Hg as [_ Hg].
  by apply elem_of_sorted_keys.
Qed.

(** A run that writes its output under [e] writes, under any appends, the
    sheets that these appends let through. *)
Lemma layout_appended e ex out :
  layout e ex = Ok out →
  ∃ prs,
    length prs = (length (batches (sorted_keys ex))
                  + length (batches (long_groups ex)))%nat ∧
    ∀ e', pixmap_ok e = pixmap_ok e' → draw_image_ok e = draw_image_ok e' →
      layout e' ex = Ok (appended (add_page_ok e') 0 prs).
Proof.
  unfold layout. intros (w & Hp & (third & Ht & H)%bind_ok)%bind_ok.
  apply bind_ok in H as (w' & Hw' & _).
  rewrite third_page_exams_eq in Ht by (intros g; apply elem_of_sorted_keys).
  injection Ht as <-. fold (long_groups ex) in Hw' |- *.
  apply primary_loop_appended in Hp as (prs & Hlen & Hprs).
  assert (∃ sup, length sup = length (batches (long_groups ex)) ∧
            ∀ e' w0, pixmap_ok e = pixmap_ok e' →
              draw_image_ok e = draw_image_ok e' →
              ∃ w0', (if decide (long_groups ex = []) then Ok w0
                      else third_loop e' ex w0 (batches (long_groups ex)))
                     = Ok w0' ∧
                sheets w0'
                = sheets w0 ++ appended (add_page_ok e') (attempts w0) sup)
    as (sup & Hlen' & Hsup).
  { destruct (decide (long_groups ex = [])) as [Hnil|Hnil].
    - exists []. rewrite Hnil. split; [done|]. intros e' w0 _ _. exists w0.
      split; [done|]. cbn [appended]. by rewrite app_nil_r.
    - apply third_loop_appended in Hw' as (sup & Hlen' & Hsup).
      exists sup. split; [done|]. intros e' w0 E1 E2.
      destruct (Hsup e' w0 E1 E2) as (w0' & ? & ? & _). by exists w0'. }
  exists (prs ++ sup). split; [rewrite length_app; lia|].
  intros e' E1 E2.
  destruct (Hprs e' (Writer [] 0) E1 E2) as (w1 & -> & Hsh & Hat).
  cbn [mbind result_bind].
  rewrite third_page_exams_eq by (intros g; apply elem_of_sorted_keys).
  cbn [mbind result_bind]. fold (long_groups ex).
  destruct (Hsup e' w1 E1 E2) as (w2 & -> & Hsh2).
  cbn [mbind result_bind]. rewrite Hsh2, Hsh, Hat, appended_app. done.
Qed.

Lemma elem_of_concat {A} (x : A) (ls : list (list A)) :
  x ∈ concat ls → ∃ l, l ∈ ls ∧ x ∈ l.
Proof.
  induction ls as [|l ls IH]; simpl; [by intros ?%elem_of_nil|].
  rewrite elem_of_app. intros [H|H].
  - exists l. split; [by left|done].
  - destruct (IH H) as (l' & ? & ?). exists l'. split; [by right|done].
Qed.

Lemma batches_cover (ids : list Z) g :
  g ∈ ids → ∃ b, b ∈ batches ids ∧ Some g ∈ b.
Proof.
  intros Hg. rewrite <- (batches_concat ids) in Hg.
  apply elem_of_concat in Hg as (l & Hl & Hg).
  apply list_elem_of_fmap in Hl as (b & -> & Hb). exists b. split; [done|].
  unfold not_none in Hg. apply list_elem_of_omap in Hg as ([g'|] & ? & [= ->]).
  done.
Qed.

Lemma resolve_hit ex r g l p :
  g ≠ 0 → ex !! g = Some l → l !! r = Some p → resolve ex r (Some g) = Some p.
Proof.
  intros Hg Hl Hp. unfold resolve, pages_of. simpl.
  rewrite bool_decide_eq_true_2 by done. by rewrite Hl.
Qed.

Lemma create_grid_page_err e ex nums idxs title i g p :
  nums !! i = Some (Some g) → idxs !! i = Some (Some p) →
  pixmap_ok e p = false ∨ draw_image_ok e p = false →
  is_err (create_grid_page e ex nums idxs title).
Proof.
  intros Hn Hi Hbad. unfold create_grid_page. apply bind_err.
  apply (grid_loop_err _ _ _ _ _ _ i g p); [|done].
  apply lookup_zip_with_Some. eauto.
Qed.

Lemma create_grid_page_resolve_err e ex r nums title g l p :
  Some g ∈ nums → g ≠ 0 → ex !! g = Some l → l !! r = Some p →
  pixmap_ok e p = false ∨ draw_image_ok e p = false →
  is_err (create_grid_page e ex nums (resolve ex r <$> nums) title).
Proof.
  intros (i & Hi)%list_elem_of_lookup Hg Hl Hp Hbad.
  apply (create_grid_page_err _ _ _ _ _ i g p); [done| |done].
  rewrite list_lookup_fmap, Hi. simpl. f_equal. by eapply resolve_hit.
Qed.

Lemma primary_step_err e ex n w batch r g l p :
  length batch = 6%nat → (r ≤ 1)%nat →
  Some g ∈ batch → g ≠ 0 → ex !! g = Some l → l !! r = Some p →
  pixmap_ok e p = false ∨ draw_image_ok e p = false →
  is_err (primary_step e ex n w batch).
Proof.
  intros Hlen Hr Hin Hg Hl Hp Hbad.
  destruct (result_cases (primary_step e ex n w batch)) as [[w' Hok]|]; [|done].
  exfalso.
  apply primary_step_ok in Hok
    as (front & hc0 & bo & back & hc & Hf & Hbo & Hb & _).
  destruct (back_order_total batch Hlen) as (bo' & Hbo' & Hperm).
  assert (bo' = bo) as -> by congruence.
  assert (r = 0 ∨ r = 1)%nat as [-> | ->] by lia.
  - pose proof (create_grid_page_resolve_err e ex 0 batch
        ("Batch " +:+ pretty n +:+ " - First Pages") g l p Hin Hg Hl Hp Hbad)
      as [err Herr].
    congruence.
  - assert (Some g ∈ bo) as Hin' by (by rewrite Hperm).
    pose proof (create_grid_page_resolve_err e ex 1 bo
        ("Batch " +:+ pretty n +:+ " - Second Pages") g l p Hin' Hg Hl Hp Hbad)
      as [err Herr].
    congruence.
Qed.

Lemma third_step_err e ex w batch g l p :
  Some g ∈ batch → g ≠ 0 → ex !! g = Some l → l !! 2%nat = Some p →
  pixmap_ok e p = false ∨ draw_image_ok e p = false →
  is_err (third_step e ex w batch).
Proof.
  intros Hin Hg Hl Hp Hbad.
  destruct (result_cases (third_step e ex w batch)) as [[w' Hok]|]; [|done].
  exfalso. apply third_step_ok in Hok as (third & hc & Ht & _).
  pose proof (create_grid_page_resolve_err e ex 2 batch
      ("Third Pages - Exams " +:+ list_repr (not_none batch))
      g l p Hin Hg Hl Hp Hbad) as [err Herr].
  congruence.
Qed.

Lemma primary_loop_err e ex n w bs b :
  b ∈ bs → (∀ n w, is_err (primary_step e ex n w b)) →
  is_err (primary_loop e ex n w bs).
Proof.
  intros Hb Herr. revert n w.
  induction bs as [|b' bs IH]; intros n w; [by apply elem_of_nil in Hb|].
  simpl. apply elem_of_cons in Hb as [<-|Hb]; [by apply bind_err|].
  destruct (primary_step e ex (S n) w b') as [w'|err]; simpl; [|by eexists].
  by apply IH.
Qed.

Lemma third_loop_err e ex w bs b :
  b ∈ bs → (∀ w, is_err (third_step e ex w b)) →
  is_err (third_loop e ex w bs).
Proof.
  intros Hb Herr. revert w.
  induction bs as [|b' bs IH]; intros w; [by apply elem_of_nil in Hb|].
  simpl. apply elem_of_cons in Hb as [<-|Hb]; [by apply bind_err|].
  destruct (third_step e ex w b') as [w'|err]; simpl; [|by eexists].
  by apply IH.
Qed.

Lemma layout_err e ex r g l p :
  (r ≤ 2)%nat → g ≠ 0 → ex !! g = Some l → l !! r = Some p →
  pixmap_ok e p = false ∨ draw_image_ok e p = false →
  is_err (layout e ex).
Proof.
  intros Hr Hg Hl Hp Hbad. unfold layout.
  assert (g ∈ sorted_keys ex) as Hkey by (apply elem_of_sorted_keys; eauto).
  destruct (decide (r ≤ 1)%nat) as [Hr1|Hr1].
  - apply bind_err.
    destruct (batches_cover _ _ Hkey) as (b & Hb & Hin).
    apply (primary_loop_err _ _ _ _ _ b Hb). intros n w.
    eapply primary_step_err; eauto using batches_length.
  - assert (r = 2%nat) as -> by lia.
    destruct (primary_loop e ex 0 (Writer [] 0) (batches (sorted_keys ex)))
      as [w|err]; simpl; [|by eexists].
    rewrite third_page_exams_eq by (intros g'; apply elem_of_sorted_keys).
    simpl.
    assert (g ∈ filter (λ g, (3 ≤ length (pages_of ex g))%nat) (sorted_keys ex))
      as Hthird.
    { apply list_elem_of_filter. split; [|done]. unfold pages_of. rewrite Hl.
      simpl. apply lookup_lt_Some in Hp. lia. }
    case_decide as Hnil; [rewrite Hnil in Hthird; by apply elem_of_nil in Hthird|].
    apply bind_err.
    destruct (batches_cover _ _ Hthird) as (b & Hb & Hin).
    apply (third_loop_err _ _ _ _ b Hb). intros w'.
    by eapply third_step_err.
Qed.

End runs.

(** ** Failures of the collaborators *)

(** C7, a cell whose rendering fails.  The failure is not recovered inside
    the sheet: when the rasterization or the image blit of a non-empty cell
    fails, [create_grid_page] raises and returns no sheet, whatever the
    other cells are; and a run in which one of the first three pages of a
    group with a non-zero id fails to render raises before the output
    document is written. *)
Theorem render_failure_aborts :
  (∀ e ex nums idxs title i g p,
     nums !! i = Some (Some g) → idxs !! i = Some (Some p) →
     pixmap_ok e p = false ∨ draw_image_ok e p = false →
     is_err (create_grid_page e ex nums idxs title)) ∧
  (∀ e pages g l r p,
     exams (classify pages) !! g = Some l → g ≠ 0 →
     l !! r = Some p → (r ≤ 2)%nat →
     pixmap_ok e p = false ∨ draw_image_ok e p = false →
     is_err (reformat_pdf e pages)).
Proof.
  split.
  - intros. by eapply create_grid_page_err.
  - intros e pages g l r p Hl Hg Hp Hr Hbad. unfold reformat_pdf.
    rewrite parse_pdf_ok. simpl. by eapply layout_err.
Qed.

(** A blit that fails on page 0, a rasterization that fails on page 1. *)
Lemma render_failure_aborts_witness :
  is_err (create_grid_page (env_draw_fails 0) {[1 := [0%nat]; 2 := [1%nat]]}
            [Some 1; Some 2] [Some 0%nat; Some 1%nat] "") ∧
  is_err (reformat_pdf (env_pixmap_fails 1) ["TEZA 1"; "TEZA 2"]).
Proof.
  split.
  - apply (proj1 render_failure_aborts _ _ _ _ _ 0%nat 1 0%nat);
      [reflexivity|reflexivity|right; reflexivity].
  - apply (proj2 render_failure_aborts _ _ 2 [1%nat] 0%nat 1%nat);
      [reflexivity|discriminate|reflexivity|lia|left; reflexivity].
Defined.

(** C7 as stated fails: with the blit of page 0 failing, the sheet of the
    cells (1, page 0) and (2, page 1) is not produced at all, where the
    claim has it hold the border and label of the first cell and the whole
    second cell; the run on the two marker pages ends with the exception
    and writes no document. *)
Lemma render_failure_not_recovered :
  draw_image_ok (env_draw_fails 0) 0 = false ∧
  create_grid_page (env_draw_fails 0) {[1 := [0%nat]; 2 := [1%nat]]}
    [Some 1; Some 2] [Some 0%nat; Some 1%nat] "" = Err (RenderError 0) ∧
  create_grid_page env_ok {[1 := [0%nat]; 2 := [1%nat]]}
    [Some 1; Some 2] [Some 0%nat; Some 1%nat] ""
  = Ok (GridSheet [DrawRect 0 0; DrawLabel 0 0 "E1-P1"; DrawImage 0 0 0;
                   DrawRect 0 1; DrawLabel 0 1 "E2-P1"; DrawImage 0 1 1],
        true) ∧
  reformat_pdf (env_draw_fails 0) ["TEZA 1"; "TEZA 2"] = Err (RenderError 0).
Proof. split_and!; vm_compute; reflexivity. Qed.

(** C8, a failing append.  The failure does not abort the run: it is
    caught inside the batch loop, so whenever rendering succeeds the output
    document is written, whichever appends fail.  The run hands the writer
    one pair of sheets per primary batch and per batch of third pages, the
    same pairs whatever the appends do, and the run without append failures
    writes them all.  The output holds exactly the sheets whose append
    succeeded: of each pair both sheets, or the first alone when the append
    of the second fails, or none when the append of the first fails, the
    second being then left out without an attempt; the pairs of the
    batches that follow are gone through in the same way.  So the output
    is a subsequence of the output of the run without append failures. *)
Theorem append_failure_caught (e : env) (pages : list string) :
  renders_ok e →
  ∃ out out' prs,
    reformat_pdf e pages = Ok out ∧
    reformat_pdf (appends_ok e) pages = Ok out' ∧
    out `sublist_of` out' ∧
    length prs
    = (length (batches (sorted_keys (exams (classify pages))))
       + length (batches (long_groups (exams (classify pages)))))%nat ∧
    out' = concat (pair_sheets <$> prs) ∧
    out = appended (add_page_ok e) 0 prs.
Proof.
  intros Hr. unfold reformat_pdf. rewrite parse_pdf_ok. simpl.
  destruct (layout_total e (exams (classify pages)) Hr (classify_nonempty pages))
    as [out Hout].
  destruct (layout_sublist _ _ _ Hout) as (out' & Hout' & Hsub).
  destruct (layout_appended _ _ _ Hout) as (prs & Hlen & Hprs).
  exists out, out', prs. split_and!; [done..| |].
  - rewrite (Hprs (appends_ok e)) in Hout' by done.
    injection Hout' as <-. by apply appended_all.
  - rewrite (Hprs e) in Hout by done. by injection Hout as <-.
Qed.

(** The run on the pages ["TEZA 9"; "a"; "b"] whose first append fails:
    the front sheet is lost, its back is not attempted, and the batch of
    third pages is still processed and appended. *)
Lemma append_failure_caught_witness :
  add_page_ok (env_append_fails 0) 0 = false ∧
  ∃ out out' prs,
    reformat_pdf (env_append_fails 0) ["TEZA 9"; "a"; "b"] = Ok out ∧
    reformat_pdf (appends_ok (env_append_fails 0)) ["TEZA 9"; "a"; "b"]
    = Ok out' ∧
    out `sublist_of` out' ∧
    length prs
    = (length (batches (sorted_keys (exams (classify ["TEZA 9"; "a"; "b"]))))
       + length (batches (long_groups (exams (classify ["TEZA 9"; "a"; "b"])))))%nat ∧
    out' = concat (pair_sheets <$> prs) ∧
    out = appended (add_page_ok (env_append_fails 0)) 0 prs.
Proof.
  split; [reflexivity|].
  apply (append_failure_caught (env_append_fails 0) ["TEZA 9"; "a"; "b"]).
  intros p; split; reflexivity.
Defined.

(** C8 as stated fails: when the second append of the run fails (the blank
    back of the only batch), the run still ends with the write of the
    output document, which holds the front sheet alone; when the first
    append fails, a document with no page is written. *)
Lemma append_failure_writes_output :
  add_page_ok (env_append_fails 1) 1 = false ∧
  reformat_pdf (env_append_fails 1) ["TEZA 1"]
  = Ok [GridSheet [DrawTitle "Batch 1 - First Pages"; DrawRect 0 0;
                   DrawLabel 0 0 "E1-P1"; DrawImage 0 0 0]] ∧
  reformat_pdf env_ok ["TEZA 1"]
  = Ok [GridSheet [DrawTitle "Batch 1 - First Pages"; DrawRect 0 0;
                   DrawLabel 0 0 "E1-P1"; DrawImage 0 0 0]; BlankSheet] ∧
  add_page_ok (env_append_fails 0) 0 = false ∧
  reformat_pdf (env_append_fails 0) ["TEZA 1"] = Ok [].
Proof. split_and!; vm_compute; reflexivity. Qed.

(** ** Group id 0 *)

Section group_zero.

(** The only batch of the ids [[0]]: both sides resolve to empty cells,
    whatever the groups are. *)
Lemma primary_loop_zero e ex w :
  primary_loop e ex 0 w (batches [0])
  = Ok (try_add_two e w (GridSheet [DrawTitle "Batch 1 - First Pages"])
          BlankSheet).
Proof. vm_compute. reflexivity. Qed.

Lemma third_loop_zero e ex w :
  third_loop e ex w (batches [0])
  = Ok (try_add_two e w (GridSheet [DrawTitle "Third Pages - Exams [0]"])
          BlankSheet).
Proof. vm_compute. reflexivity. Qed.

Lemma layout_zero e ex l :
  sorted_keys ex = [0] → ex !! 0 = Some l → (∀ k, add_page_ok e k = true) →
  layout e ex
  = Ok ([GridSheet [DrawTitle "Batch 1 - First Pages"]; BlankSheet]
        ++ if decide (3 ≤ length l)%nat
           then [GridSheet [DrawTitle "Third Pages - Exams [0]"]; BlankSheet]
           else []).
Proof.
  intros Hk Hl Ha. unfold layout. rewrite Hk, primary_loop_zero.
  cbn [mbind result_bind].
  rewrite third_page_exams_eq
    by (intros g ->%list_elem_of_singleton; by rewrite Hl).
  cbn [mbind result_bind]. rewrite filter_cons, filter_nil.
  assert (pages_of ex 0 = l) as -> by (unfold pages_of; by rewrite Hl).
  destruct (decide (3 ≤ length l)%nat) as [H3|H3].
  - rewrite decide_False by done. rewrite third_loop_zero.
    cbn [mbind result_bind]. by rewrite !try_add_two_all.
  - rewrite decide_True by done. cbn [mbind result_bind].
    by rewrite try_add_two_all.
Qed.

End group_zero.

(** C10, the marker [TEZA 0].  When page [i] carries a marker with id 0,
    [parse_pdf] returns groups among which a group 0 holds page [i]; the
    slot of group 0 resolves to no page on the front side, on the back side
    and on the sheets of third pages; no sheet of the output shows a page
    of group 0, and when rendering succeeds the run does write an output,
    of which this holds; for the batch that holds group 0 alone the back
    side resolves to six empty cells and is rendered without content; and
    when group 0 is the only group and no append fails, the output is a
    front sheet that holds its title alone and a blank sheet, followed,
    when group 0 has three pages or more, by a sheet of third pages that
    holds its title alone and a blank sheet. *)
Theorem group_zero_hidden (e : env) (pages : list string) (i : nat)
    (text : string) :
  pages !! i = Some text → Re.teza_id text = Some 0 →
  ∃ st l, parse_pdf pages = Ok st ∧ st = classify pages ∧
    exams st !! 0 = Some l ∧ i ∈ l ∧
    first_page (exams st) (Some 0) = Ok None ∧
    second_page (exams st) (Some 0) = Ok None ∧
    third_page (exams st) (Some 0) = Ok None ∧
    (∀ out s p, reformat_pdf e pages = Ok out → s ∈ out →
       p ∈ sheet_images s → p ∉ l) ∧
    (renders_ok e →
     ∃ out, reformat_pdf e pages = Ok out ∧
       ∀ s p, s ∈ out → p ∈ sheet_images s → p ∉ l) ∧
    (∃ bo, batches [0] = [batch_at [0] 0] ∧
       back_order (batch_at [0] 0) = Ok bo ∧
       for_each (second_page (exams st)) bo = Ok (replicate 6 None) ∧
       ∀ title, ∃ s,
         create_grid_page e (exams st) bo (replicate 6 None) title
         = Ok (s, false) ∧ sheet_images s = []) ∧
    (sorted_keys (exams st) = [0] → (∀ k, add_page_ok e k = true) →
     reformat_pdf e pages
     = Ok ([GridSheet [DrawTitle "Batch 1 - First Pages"]; BlankSheet]
           ++ if decide (3 ≤ length l)%nat
              then [GridSheet [DrawTitle "Third Pages - Exams [0]"]; BlankSheet]
              else [])).
Proof.
  intros Hi Ht.
  assert (i ∈ pages_of (exams (classify pages)) 0) as Hin.
  { apply classify_member. split; [by eapply lookup_lt_Some|].
    by eapply active_from_marker. }
  unfold pages_of in Hin.
  destruct (exams (classify pages) !! 0) as [l|] eqn:Hl;
    [|by apply elem_of_nil in Hin].
  simpl in Hin.
  assert (∀ out s p, reformat_pdf e pages = Ok out → s ∈ out →
            p ∈ sheet_images s → p ∉ l) as Hhid.
  { intros out s p Hout Hs Hp Hpl.
    unfold reformat_pdf in Hout. rewrite parse_pdf_ok in Hout. simpl in Hout.
    apply layout_ranked in Hout.
    rewrite Forall_forall in Hout.
    destruct (Hout s Hs p Hp) as (g & l' & r & Hg & Hl' & Hr & _).
    apply Hg. symmetry.
    apply (classify_disjoint pages 0 g l l' p); [done..| |]; [done|].
    by eapply list_elem_of_lookup_2. }
  exists (classify pages), l.
  split; [apply parse_pdf_ok|]. split; [done|]. split; [done|].
  split_and!; try done.
  - intros Hr.
    destruct (layout_total e (exams (classify pages)) Hr (classify_nonempty pages))
      as [out Hout].
    assert (reformat_pdf e pages = Ok out) as Hrun.
    { unfold reformat_pdf. by rewrite parse_pdf_ok. }
    exists out. split; [done|]. intros s p. by apply Hhid.
  - exists [None; None; Some 0; None; None; None]. split_and!; try reflexivity.
    intros title. eexists. split; [reflexivity|].
    simpl. by destruct (decide (title = "")).
  - intros Hk Ha. unfold reformat_pdf. rewrite parse_pdf_ok.
    cbn [mbind result_bind]. by apply layout_zero.
Qed.

(** The pages ["TEZA 0"; "a"; "b"]: group 0 is the only group and has
    three pages. *)
Lemma group_zero_hidden_witness :
  ∃ st l, parse_pdf ["TEZA 0"; "a"; "b"] = Ok st ∧
    st = classify ["TEZA 0"; "a"; "b"] ∧
    exams st !! 0 = Some l ∧ 0%nat ∈ l ∧
    first_page (exams st) (Some 0) = Ok None ∧
    second_page (exams st) (Some 0) = Ok None ∧
    third_page (exams st) (Some 0) = Ok None ∧
    (∀ out s p, reformat_pdf env_ok ["TEZA 0"; "a"; "b"] = Ok out → s ∈ out →
       p ∈ sheet_images s → p ∉ l) ∧
    (renders_ok env_ok →
     ∃ out, reformat_pdf env_ok ["TEZA 0"; "a"; "b"] = Ok out ∧
       ∀ s p, s ∈ out → p ∈ sheet_images s → p ∉ l) ∧
    (∃ bo, batches [0] = [batch_at [0] 0] ∧
       back_order (batch_at [0] 0) = Ok bo ∧
       for_each (second_page (exams st)) bo = Ok (replicate 6 None) ∧
       ∀ title, ∃ s,
         create_grid_page env_ok (exams st) bo (replicate 6 None) title
         = Ok (s, false) ∧ sheet_images s = []) ∧
    (sorted_keys (exams st) = [0] → (∀ k, add_page_ok env_ok k = true) →
     reformat_pdf env_ok ["TEZA 0"; "a"; "b"]
     = Ok ([GridSheet [DrawTitle "Batch 1 - First Pages"]; BlankSheet]
           ++ if decide (3 ≤ length l)%nat
              then [GridSheet [DrawTitle "Third Pages - Exams [0]"]; BlankSheet]
              else [])).
Proof.
  apply (group_zero_hidden env_ok ["TEZA 0"; "a"; "b"] 0 "TEZA 0"); reflexivity.
Defined.

(** ** Sheet pairs *)

Section pairs.

Lemma existsb_elem {A} (f : A → bool) (l : list A) :
  existsb f l = true ↔ ∃ x, x ∈ l ∧ f x = true.
Proof.
  rewrite existsb_exists. split; intros (x & Hx & Hf); exists x;
    (split; [by apply list_elem_of_In|done]).
Qed.



Lemma omap_cell_page (f : option Z → option nat) (slots : list (option Z)) :
  f None = None → omap cell_page (zip slots (f <$> slots)) = omap f slots.
Proof.
  intros Hf. induction slots as [|[g|] slots IH]; simpl; [done|..].
  - destruct (f (Some g)); simpl; [f_equal|]; exact IH.
  - rewrite Hf. simpl. exact IH.
Qed.

Lemma third_loop_pairs e ex w bs w' :
  (∀ k, add_page_ok e k = true) →
  third_loop e ex w bs = Ok w' →
  ∃ sup, sheets w' = sheets w ++ concat sup ∧
    Forall2 (λ batch pair, ∃ s,
               pair = [s; BlankSheet] ∧
               sheet_images s = omap (resolve ex 2) batch) bs sup.
Proof.
  intros Ha. revert w. induction bs as [|b bs IH]; intros w; simpl.
  - intros [= <-]. exists []. split; [by rewrite app_nil_r|constructor].
  - intros (w1 & Hs & Hl)%bind_ok.
    apply third_step_ok in Hs as (third & hc & Ht & ->).
    apply IH in Hl as (sup & -> & Hsup).
    exists ([third; BlankSheet] :: sup). split.
    + rewrite try_add_two_all by done. simpl. by rewrite <- app_assoc.
    + constructor; [|done]. exists third. split; [done|].
      apply create_grid_page_ok in Ht as [_ ->]. by apply omap_cell_page.
Qed.

Lemma primary_loop_pairs e ex n w bs w' :
  (∀ k, add_page_ok e k = true) →
  primary_loop e ex n w bs = Ok w' →
  ∃ prs, sheets w' = sheets w ++ concat prs ∧
    Forall2 (λ batch pair, ∃ front back,
               pair = [front; back] ∧
               sheet_images front = omap (resolve ex 0) batch) bs prs.
Proof.
  intros Ha. revert n w. induction bs as [|b bs IH]; intros n w; simpl.
  - intros [= <-]. exists []. split; [by rewrite app_nil_r|constructor].
  - intros (w1 & Hs & Hl)%bind_ok.
    apply primary_step_ok in Hs
      as (front & hc0 & bo & back & hc & Hf & _ & _ & ->).
    apply IH in Hl as (prs & -> & Hprs).
    exists ([front; if hc then back else BlankSheet] :: prs). split.
    + rewrite try_add_two_all by done. simpl. by rewrite <- app_assoc.
    + constructor; [|done]. eexists _, _. split; [done|].
      apply create_grid_page_ok in Hf as [_ ->]. by apply omap_cell_page.
Qed.


End pairs.




(** ** Third pages *)

Section third_pages.



End third_pages.




(** ** Labels *)

(** The label of a page whose group is a run of consecutive pages starting
    at [first] gives its rank, counted from one. *)
Lemma label_text_contiguous g first r :
  label_text g (first + r) first
  = "E" +:+ pretty g +:+ "-P" +:+ pretty (Z.of_nat r + 1).
Proof. unfold label_text. do 4 f_equal. lia. Qed.

(** C5, the page number in a label.  The label is computed as the distance
    of the page from the first page of its group, plus one, which is the
    rank only while the group is a run of consecutive pages.  With the
    pages ["TEZA 1"; "TEZA 2"; "TEZA 1"] group 1 is pages 0 and 2; its
    second page, page 2, is shown on the back sheet under the label
    ["E1-P3"], where the claim has ["E1-P2"]. *)
Theorem label_counts_offset :
  exams (classify ["TEZA 1"; "TEZA 2"; "TEZA 1"]) !! 1 = Some [0; 2]%nat ∧
  label_text 1 2 0 = "E1-P3" ∧
  reformat_pdf env_ok ["TEZA 1"; "TEZA 2"; "TEZA 1"]
  = Ok [GridSheet [DrawTitle "Batch 1 - First Pages";
                   DrawRect 0 0; DrawLabel 0 0 "E1-P1"; DrawImage 0 0 0;
                   DrawRect 0 1; DrawLabel 0 1 "E2-P1"; DrawImage 0 1 1];
        GridSheet [DrawTitle "Batch 1 - Second Pages";
                   DrawRect 0 2; DrawLabel 0 2 "E1-P3"; DrawImage 0 2 2]].
Proof. split_and!; vm_compute; reflexivity. Qed.

(** * Further properties of the code *)

(** ** What [create_grid_page] draws *)

Section sheets.

Lemma grid_loop_sheet e ex idx cells ops hc ops' hc' :
  grid_loop e ex idx cells ops hc = Ok (ops', hc') →
  ops' = ops ++ concat (cell_ops ex <$> full_cells idx cells).
Proof.
  revert idx ops hc.
  induction cells as [|[[g|] [p|]] cells IH]; intros idx ops hc; simpl.
  - intros [= <- _]. by rewrite app_nil_r.
  - intros (pages & Hpages & (first & Hfirst & H)%bind_ok)%bind_ok.
    destruct (pixmap_ok e p); [|done].
    destruct (draw_image_ok e p); [|done].
    apply IH in H as ->.
    assert (first_of ex g = first) as ->.
    { unfold first_of, pages_of. unfold dict_get in Hpages.
      destruct (ex !! g) as [l|]; [|done]. injection Hpages as ->.
      unfold list_get in Hfirst. simpl.
      destruct (pages !! 0%nat); [|done]. by injection Hfirst as ->. }
    by rewrite <- !app_assoc.
  - apply IH.
  - apply IH.
  - apply IH.
Qed.

Lemma elem_of_full_cells idx cells i g p :
  (i, g, p) ∈ full_cells idx cells ↔
  ∃ j, i = (idx + j)%nat ∧ cells !! j = Some (Some g, Some p).
Proof.
  revert idx. induction cells as [|c cells IH]; intros idx.
  - simpl. split; [by intros ?%elem_of_nil|by intros (j & _ & ?)].
  - transitivity ((i = idx ∧ c = (Some g, Some p)) ∨
                  (i, g, p) ∈ full_cells (S idx) cells).
    + destruct c as [[g'|] [p'|]]; simpl; rewrite ?elem_of_cons.
      * split; (intros [H|H]; [left|by right]).
        -- by injection H as -> -> ->.
        -- destruct H as [-> H]. by injection H as -> ->.
      * split; [by right|]. by intros [[_ [=]]|H].
      * split; [by right|]. by intros [[_ [=]]|H].
      * split; [by right|]. by intros [[_ [=]]|H].
    + rewrite IH. split.
      * intros [[-> ->]|(j & -> & Hj)].
        -- exists 0%nat. split; [lia|done].
        -- exists (S j). split; [lia|done].
      * intros ([|j] & -> & Hj).
        -- left. simpl in Hj. injection Hj as ->. split; [lia|done].
        -- right. exists j. split; [lia|done].
Qed.

Lemma full_cells_lt idx cells :
  Forall (λ c, (idx ≤ c.1.1 < idx + length cells)%nat) (full_cells idx cells).
Proof.
  apply Forall_forall. intros [[i g] p] (j & -> & Hj)%elem_of_full_cells.
  apply lookup_lt_Some in Hj. simpl. lia.
Qed.

Lemma full_cells_NoDup idx cells : NoDup ((full_cells idx cells).*1.*1).
Proof.
  revert idx. induction cells as [|[[g|] [p|]] cells IH]; intros idx; simpl;
    try apply IH; [constructor|].
  constructor; [|apply IH].
  intros (c & Hc & Hin)%list_elem_of_fmap.
  apply list_elem_of_fmap in Hin as (c' & -> & Hin).
  pose proof (full_cells_lt (S idx) cells) as Hlt.
  rewrite Forall_forall in Hlt. specialize (Hlt _ Hin). lia.
Qed.

Lemma grid_loop_ok_iff e ex idx cells ops hc :
  is_ok (grid_loop e ex idx cells ops hc) ↔
  ∀ g p, (Some g, Some p) ∈ cells → cell_drawable e ex g p.
Proof.
  revert idx ops hc. induction cells as [|c cells IH]; intros idx ops hc.
  - split; [by intros _ g p ?%elem_of_nil|by eexists].
  - assert (∀ P : Prop, ¬ P →
              (is_ok (@Err (list draw_op * bool) IndexError) ↔ P) ∧
              ∀ err, (is_ok (@Err (list draw_op * bool) err) ↔ P)) as Hno.
    { intros P HP. split; [|intros err]; (split; [by intros [? [=]]|done]). }
    destruct c as [[g|] [p|]]; simpl.
    2-4: rewrite IH; split; intros H g' p' Hin;
      [apply elem_of_cons in Hin as [[=]|?]; by apply H|apply H; by right].
    assert (¬ cell_drawable e ex g p →
            ¬ ∀ g' p', (Some g', Some p') ∈ (Some g, Some p) :: cells →
                       cell_drawable e ex g' p') as Hhead.
    { intros Hn H. apply Hn, H. by left. }
    unfold dict_get, list_get.
    destruct (ex !! g) as [[|first l]|] eqn:El; simpl.
    + apply Hno, Hhead. intros [(l' & Hl' & ?) _]. rewrite El in Hl'.
      by injection Hl' as <-.
    + destruct (pixmap_ok e p) eqn:E1.
      * destruct (draw_image_ok e p) eqn:E2.
        -- rewrite IH. split.
           ++ intros H g' p' [[= -> ->]|?]%elem_of_cons; [|by apply H].
              split_and!; [|done..]. rewrite El. by exists (first :: l).
           ++ intros H g' p' Hin. apply H. by right.
        -- apply Hno, Hhead. intros (_ & _ & ?). congruence.
      * apply Hno, Hhead. intros (_ & ? & _). congruence.
    + apply Hno, Hhead. intros [(l' & Hl' & ?) _]. by rewrite El in Hl'.
Qed.

Lemma full_cells_nil idx cells :
  full_cells idx cells = [] ↔ existsb cell_full cells = false.
Proof.
  revert idx. induction cells as [|[[g|] [p|]] cells IH]; intros idx; simpl;
    try apply IH; done.
Qed.

Lemma cell_ops_nil ex (title_part : list draw_op) fc :
  title_part ++ concat (cell_ops ex <$> fc) = title_part ↔ fc = [].
Proof.
  split; [|intros ->; apply app_nil_r].
  intros H. rewrite <- (app_nil_r title_part) in H at 2.
  apply app_inv_head in H. by destruct fc as [|[[i g] p] fc].
Qed.

End sheets.

(** X1, the sheet that [create_grid_page] returns.  Whenever the method
    returns, the sheet holds the title, if it is not empty, and then, for
    each position whose exam number and page index are both present, in
    order, the border, the label and the image of that cell at row
    [idx // 3] and column [idx % 3]; the other positions draw nothing, and
    [has_content] is true exactly when there is such a position. *)
Theorem create_grid_page_sheet e ex nums idxs title s hc :
  create_grid_page e ex nums idxs title = Ok (s, hc) →
  s = sheet_of ex title (zip nums idxs) ∧
  hc = existsb cell_full (zip nums idxs) ∧
  (hc = false ↔ sheet_ops s = title_ops title).
Proof.
  intros H. pose proof (create_grid_page_ok _ _ _ _ _ _ _ H) as [Hhc _].
  unfold create_grid_page in H. apply bind_ok in H as ([ops hc'] & H & [= <- <-]).
  apply grid_loop_sheet in H as ->. split_and!; [done..|].
  rewrite Hhc. simpl. fold (title_ops title).
  by rewrite cell_ops_nil, full_cells_nil.
Qed.

(** The sheet of one group on its own page. *)
Lemma create_grid_page_sheet_witness :
  GridSheet [DrawRect 0 1; DrawLabel 0 1 "E4-P1"; DrawImage 0 1 7]
  = sheet_of {[4 := [7%nat]]} "" (zip [None; Some 4] [None; Some 7%nat]) ∧
  true = existsb cell_full (zip [None; Some 4] [None; Some 7%nat]) ∧
  (true = false ↔
   sheet_ops (GridSheet [DrawRect 0 1; DrawLabel 0 1 "E4-P1"; DrawImage 0 1 7])
   = title_ops "").
Proof.
  apply (create_grid_page_sheet env_ok {[4 := [7%nat]]}
           [None; Some 4] [None; Some 7%nat] "").
  reflexivity.
Defined.

(** X2, when [create_grid_page] returns.  The method returns a sheet
    exactly when every position whose exam number and page index are both
    present names an exam of the dictionary that has a page, and holds a
    page that rasterizes and blits; otherwise it raises. *)
Theorem create_grid_page_returns e ex nums idxs title :
  (is_ok (create_grid_page e ex nums idxs title) ↔
   ∀ g p, (Some g, Some p) ∈ zip nums idxs → cell_drawable e ex g p) ∧
  (is_err (create_grid_page e ex nums idxs title) ↔
   ∃ g p, (Some g, Some p) ∈ zip nums idxs ∧ ¬ cell_drawable e ex g p).
Proof.
  assert (is_ok (create_grid_page e ex nums idxs title) ↔
          ∀ g p, (Some g, Some p) ∈ zip nums idxs → cell_drawable e ex g p)
    as Hok.
  { unfold create_grid_page. rewrite <- (grid_loop_ok_iff e ex 0 _
      (if decide (title = "") then [] else [DrawTitle title]) false).
    destruct (grid_loop _ _ _ _ _ _) as [[ops hc]|err]; simpl.
    - split; intros _; by eexists.
    - split; by intros [? [=]]. }
  split; [done|].
  assert (∀ g p, Decision (cell_drawable e ex g p)) as Hdec.
  { intros g p. unfold cell_drawable.
    destruct (ex !! g) as [[|x l]|];
      [right; by intros [(l' & [= <-] & ?) _]| |right; by intros [(l' & [=] & ?) _]].
    destruct (pixmap_ok e p); [|right; by intros (_ & [=] & _)].
    destruct (draw_image_ok e p); [|right; by intros (_ & _ & [=])].
    left. split_and!; [|done..]. by exists (x :: l). }
  assert (∀ cells : list (option Z * option nat),
            (∀ g p, (Some g, Some p) ∈ cells → cell_drawable e ex g p) ∨
            (∃ g p, (Some g, Some p) ∈ cells ∧ ¬ cell_drawable e ex g p))
    as Hcases.
  { induction cells as [|c cells [IH|(g & p & Hin & Hn)]].
    - left. by intros g p ?%elem_of_nil.
    - destruct c as [[g|] [p|]].
      2-4: left; intros g' p' [[=]|?]%elem_of_cons; by apply IH.
      destruct (Hdec g p) as [Hd|Hn].
      + left. intros g' p' [[= -> ->]|?]%elem_of_cons; [done|by apply IH].
      + right. exists g, p. split; [by left|done].
    - right. exists g, p. split; [by right|done]. }
  split.
  - intros Herr. destruct (Hcases (zip nums idxs)) as [Hall|Hex]; [|done].
    exfalso. eapply ok_not_err; [|exact Herr]. by apply Hok.
  - intros (g & p & Hin & Hn).
    destruct (result_cases (create_grid_page e ex nums idxs title)) as [H|H];
      [|done].
    destruct Hn. by apply Hok.
Qed.

(** ** More on classification *)

Section more_classification.

Lemma classify_from_no_marker st n pages :
  current_exam st = None →
  Forall (λ text, Re.teza_id text = None) pages →
  classify_from st n pages = st.
Proof.
  intros Hcur Hall. revert n.
  induction Hall as [|text rest Ht Hall IH]; intros n; [done|].
  simpl. unfold classify_step. rewrite Ht, Hcur. apply IH.
Qed.

Lemma layout_empty e : layout e ∅ = Ok [].
Proof.
  unfold layout, sorted_keys. rewrite map_to_list_empty. reflexivity.
Qed.

Lemma exams_classify_step st n text :
  exams (classify_step st n text)
  = match current_exam (classify_step st n text) with
    | Some g => <[g := pages_of (exams st) g ++ [n]]> (exams st)
    | None => exams st
    end.
Proof.
  unfold classify_step. destruct (Re.teza_id text); [done|].
  by destruct (current_exam st) eqn:E; simpl; rewrite ?E.
Qed.

(** Each group starts with a marker page of its id, and lists its pages
    in increasing order, all of them pages of the document. *)
Lemma classify_groups_shape pages g l :
  exams (classify pages) !! g = Some l →
  (∃ p rest text, l = p :: rest ∧ pages !! p = Some text
                  ∧ Re.teza_id text = Some g) ∧
  StronglySorted lt l ∧
  Forall (λ p, (p < length pages)%nat) l.
Proof.
  revert g l. induction pages as [|text pages IH] using rev_ind; intros g l.
  { unfold classify. simpl. by rewrite lookup_empty. }
  unfold classify. rewrite classify_from_snoc. fold (classify pages).
  simpl. set (st := classify pages) in *. set (n := length pages).
  assert (active_known st) as Hknown
    by apply classify_from_known, init_known.
  assert (∀ g0 l0, exams st !! g0 = Some l0 →
            (∃ p rest text0, l0 = p :: rest ∧
               (pages ++ [text]) !! p = Some text0 ∧
               Re.teza_id text0 = Some g0) ∧
            StronglySorted lt l0 ∧
            Forall (λ p, (p < length (pages ++ [text]))%nat) l0) as Hold.
  { intros g0 l0 Hl0.
    destruct (IH g0 l0 Hl0) as ((p & rest & t0 & -> & Hp & Ht0) & Hs & Hb).
    split_and!; [|done|].
    - exists p, rest, t0. split_and!; [done| |done].
      by apply lookup_app_l_Some.
    - eapply Forall_impl; [exact Hb|]. intros q Hq. rewrite length_app.
      simpl in *. lia. }
  rewrite exams_classify_step, current_classify_step.
  destruct (match Re.teza_id text with
            | Some g0 => Some g0
            | None => current_exam st
            end) as [g'|] eqn:Hcur; [|apply Hold].
  destruct (decide (g' = g)) as [->|Hne];
    [|rewrite lookup_insert_ne by done; apply Hold].
  rewrite lookup_insert_eq. intros [= <-]. unfold pages_of.
  destruct (exams st !! g) as [l0|] eqn:El0; simpl.
  - destruct (IH g l0 El0) as ((p & rest & t0 & -> & Hp & Ht0) & Hs & Hb).
    split_and!.
    + exists p, (rest ++ [n]), t0. split_and!; [done| |done].
      by apply lookup_app_l_Some.
    + apply (StronglySorted_app_2 lt (p :: rest) [n]);
        [|done|by repeat constructor].
      intros x1 x2 Hx1 ->%list_elem_of_singleton.
      rewrite Forall_forall in Hb. by apply Hb.
    + apply Forall_app. split.
      * eapply Forall_impl; [exact Hb|]. intros q Hq. rewrite length_app.
        simpl in *. lia.
      * constructor; [|done]. rewrite length_app. simpl. unfold n. lia.
  - assert (Re.teza_id text = Some g) as Hmark.
    { destruct (Re.teza_id text) as [g0|]; [done|].
      destruct (Hknown g Hcur) as [? ?]. congruence. }
    split_and!.
    + exists n, [], text. split_and!; [done| |done].
      unfold n. by rewrite lookup_app_r, Nat.sub_diag.
    + by repeat constructor.
    + constructor; [|done]. rewrite length_app. simpl. unfold n. lia.
Qed.

Lemma classify_step_prefix st n text g :
  pages_of (exams st) g
    `prefix_of` pages_of (exams (classify_step st n text)) g.
Proof.
  rewrite exams_classify_step.
  destruct (current_exam (classify_step st n text)) as [g'|]; [|done].
  unfold pages_of at 2. destruct (decide (g' = g)) as [->|Hne].
  - rewrite lookup_insert_eq. simpl. by apply prefix_app_r.
  - by rewrite lookup_insert_ne.
Qed.

Lemma classify_from_prefix st n pages g :
  pages_of (exams st) g
    `prefix_of` pages_of (exams (classify_from st n pages)) g.
Proof.
  revert st n. induction pages as [|text rest IH]; intros st n; [done|].
  simpl. etrans; [apply (classify_step_prefix st n text)|apply IH].
Qed.

Lemma classify_from_app st n pages more :
  classify_from st n (pages ++ more)
  = classify_from (classify_from st n pages) (n + length pages) more.
Proof.
  revert st n. induction pages as [|text rest IH]; intros st n; simpl.
  - by rewrite Nat.add_0_r.
  - rewrite IH. f_equal. lia.
Qed.

Lemma parse_loop_ext st n pages pages' :
  Forall2 (λ a b, Re.teza_id a = Re.teza_id b) pages pages' →
  parse_loop st n pages = parse_loop st n pages'.
Proof.
  intros H. revert st n.
  induction H as [|a b pages pages' Hab H IH]; intros st n; [done|].
  simpl. unfold parse_page. rewrite Hab.
  destruct (Re.teza_id b) as [g|].
  - destruct (dict_append _ g n); simpl; [apply IH|done].
  - destruct (current_exam st) as [g|]; simpl; [|apply IH].
    destruct (dict_append _ g n); simpl; [apply IH|done].
Qed.

End more_classification.

(** X3, a document without markers.  When no page matches the marker
    pattern, [parse_pdf] leaves the dictionary empty and [reformat_pdf]
    writes a document with no page, whatever the collaborators do; so does a
    document with no page at all. *)
Theorem no_marker_no_output (e : env) (pages : list string) :
  Forall (λ text, Re.teza_id text = None) pages →
  parse_pdf pages = Ok (ParseState ∅ None) ∧
  reformat_pdf e pages = Ok [].
Proof.
  intros Hall.
  assert (classify pages = ParseState ∅ None) as Hc
    by by apply classify_from_no_marker.
  unfold reformat_pdf. rewrite parse_pdf_ok, Hc. split; [done|].
  simpl. apply layout_empty.
Qed.

(** Two pages that carry no marker. *)
Lemma no_marker_no_output_witness :
  parse_pdf ["cover"; "tez 4"] = Ok (ParseState ∅ None) ∧
  reformat_pdf (env_draw_fails 0) ["cover"; "tez 4"] = Ok [].
Proof.
  apply (no_marker_no_output (env_draw_fails 0) ["cover"; "tez 4"]).
  repeat constructor.
Defined.

(** X4, the shape of a group.  Every group that [parse_pdf] builds starts
    with a page that carries the marker of its id, lists its pages in
    strictly increasing order, holds only indices of pages of the document,
    and shares no page with another group. *)
Theorem groups_shape (pages : list string) (g : Z) (l : list nat) :
  exams (classify pages) !! g = Some l →
  parse_pdf pages = Ok (classify pages) ∧
  (∃ p rest text, l = p :: rest ∧ pages !! p = Some text
                  ∧ Re.teza_id text = Some g) ∧
  StronglySorted lt l ∧
  Forall (λ p, (p < length pages)%nat) l ∧
  (∀ g' l' p, exams (classify pages) !! g' = Some l' →
              p ∈ l → p ∈ l' → g' = g).
Proof.
  intros Hl. destruct (classify_groups_shape pages g l Hl) as (H1 & H2 & H3).
  split_and!; [apply parse_pdf_ok|done..|].
  intros g' l' p Hl' Hp Hp'. by eapply classify_disjoint.
Qed.

(** Group 3 of a document in which group 5 interrupts it. *)
Lemma groups_shape_witness :
  parse_pdf ["x"; "TEZA 3"; "y"; "Teza5"; "teza 3"]
  = Ok (classify ["x"; "TEZA 3"; "y"; "Teza5"; "teza 3"]) ∧
  (∃ p rest text, [1; 2; 4]%nat = p :: rest ∧
     ["x"; "TEZA 3"; "y"; "Teza5"; "teza 3"] !! p = Some text ∧
     Re.teza_id text = Some 3) ∧
  StronglySorted lt [1; 2; 4]%nat ∧
  Forall (λ p, (p < length ["x"; "TEZA 3"; "y"; "Teza5"; "teza 3"])%nat)
    [1; 2; 4]%nat ∧
  (∀ g' l' p,
     exams (classify ["x"; "TEZA 3"; "y"; "Teza5"; "teza 3"]) !! g' = Some l' →
     p ∈ [1; 2; 4]%nat → p ∈ l' → g' = 3).
Proof.
  apply (groups_shape ["x"; "TEZA 3"; "y"; "Teza5"; "teza 3"] 3 [1; 2; 4]%nat).
  reflexivity.
Defined.

(** X5, reading more pages.  The groups of a document are prefixes of the
    groups of any document that continues it: pages added at the end never
    change or reorder what was already assigned. *)
Theorem more_pages_extend (pages more : list string) :
  ∃ st st',
    parse_pdf pages = Ok st ∧ parse_pdf (pages ++ more) = Ok st' ∧
    ∀ g, pages_of (exams st) g `prefix_of` pages_of (exams st') g.
Proof.
  exists (classify pages), (classify (pages ++ more)).
  split_and!; [apply parse_pdf_ok..|].
  intros g. unfold classify. rewrite classify_from_app. apply classify_from_prefix.
Qed.

(** ** More on the marker pattern *)

Module ReMore.
Import Re ReFacts.

Lemma digit_val_nonneg c : is_digit c = true → 0 ≤ digit_val c.
Proof.
  unfold is_digit, digit_val. intros [H%Nat.leb_le _]%andb_true_iff. lia.
Qed.

Lemma int_acc_nonneg acc s :
  0 ≤ acc → str_forall is_digit s = true → 0 ≤ int_acc acc s.
Proof.
  revert acc. induction s as [|c s IH]; intros acc Hacc; simpl; [done|].
  intros [Hc Hs]%andb_true_iff. apply IH; [|done].
  pose proof (digit_val_nonneg c Hc). lia.
Qed.

(** The digits that a match of the pattern captures. *)
Lemma search_digits text m :
  search teza_pattern text = Some m →
  group1 m ≠ "" ∧ str_forall is_digit (group1 m) = true.
Proof.
  intros (pre & s & _ & Hm & _)%search_leftmost.
  rewrite re_match_teza in Hm.
  apply teza_match_marker in Hm as (tok & ws & post & _ & _ & _ & ? & ? & _).
  done.
Qed.

Lemma teza_id_nonneg text n : teza_id text = Some n → 0 ≤ n.
Proof.
  unfold teza_id. destruct (search teza_pattern text) as [m|] eqn:E; [|done].
  intros [= <-]. apply search_digits in E as [_ Hd].
  by apply int_acc_nonneg.
Qed.

Lemma lower_digit c : is_digit c = true → lower c = c.
Proof. destruct c as [[] [] [] [] [] [] [] []]; vm_compute; done. Qed.

Lemma lower_classes c :
  is_space (lower c) = is_space c ∧ is_digit (lower c) = is_digit c ∧
  ci "T" "t" (lower c) = ci "T" "t" c ∧ ci "E" "e" (lower c) = ci "E" "e" c ∧
  ci "Z" "z" (lower c) = ci "Z" "z" c ∧ ci "A" "a" (lower c) = ci "A" "a" c.
Proof. destruct c as [[] [] [] [] [] [] [] []]; vm_compute; done. Qed.

Lemma str_map_lower_digits s :
  str_forall is_digit s = true → str_map lower s = s.
Proof.
  induction s as [|c s IH]; simpl; [done|].
  intros [Hc Hs]%andb_true_iff. by rewrite (lower_digit c Hc), IH.
Qed.

Lemma star_lower (p : ascii → bool) (k k' : string → option (list string))
    (s : string) :
  (∀ c, p (lower c) = p c) →
  (∀ s, k' (str_map lower s) = (λ r : list string, str_map lower <$> r) <$> k s) →
  star p k' (str_map lower s)
  = (λ wr : string * list string,
       (str_map lower wr.1, str_map lower <$> wr.2)) <$> star p k s.
Proof.
  intros Hp Hk. induction s as [|c s IH].
  - pose proof (Hk "") as H0. cbn [str_map] in H0. cbn [str_map star].
    rewrite H0. by destruct (k "").
  - pose proof (Hk (String c s)) as H0. cbn [str_map] in H0.
    cbn [str_map star]. rewrite Hp, H0.
    destruct (p c); [|by destruct (k (String c s))].
    rewrite IH. destruct (star p k s) as [[w r]|]; simpl; [done|].
    by destruct (k (String c s)).
Qed.

Lemma re_match_lower (items : list atom) (s : string) :
  Forall (λ a, ∀ c, cls a (lower c) = cls a c) items →
  re_match items (str_map lower s)
  = (λ r : list string, str_map lower <$> r) <$> re_match items s.
Proof.
  intros Hitems. revert s.
  induction Hitems as [|[p []] items Hp _ IH]; intros s; [done|..];
    simpl in Hp.
  - destruct s as [|c s]; [done|]. cbn [str_map re_match q cls].
    rewrite Hp. destruct (p c); [|done]. rewrite IH.
    by destruct (re_match items s).
  - cbn [re_match q cls]. rewrite (star_lower p (re_match items)) by done.
    by destruct (star p (re_match items) s) as [[w r]|].
  - destruct s as [|c s]; [done|]. cbn [str_map re_match q cls].
    rewrite Hp. destruct (p c); [|done].
    rewrite (star_lower p (re_match items)) by done.
    by destruct (star p (re_match items) s) as [[w r]|].
Qed.

Lemma search_lower (items : list atom) (s : string) :
  Forall (λ a, ∀ c, cls a (lower c) = cls a c) items →
  search items (str_map lower s) = (λ r : list string, str_map lower <$> r) <$> search items s.
Proof.
  intros Hitems. induction s as [|c s IH].
  - pose proof (re_match_lower items "" Hitems) as H0. cbn [str_map] in H0.
    cbn [str_map search]. destruct (re_match items "") as [l|]; [|done].
    simpl in *. congruence.
  - pose proof (re_match_lower items (String c s) Hitems) as H0.
    cbn [str_map] in H0. cbn [str_map search]. rewrite H0.
    destruct (re_match items (String c s)); [done|]. simpl. apply IH.
Qed.

Lemma teza_pattern_lower :
  Forall (λ a, ∀ c, cls a (lower c) = cls a c) teza_pattern.
Proof.
  unfold teza_pattern. repeat constructor; intros c; simpl;
    by destruct (lower_classes c) as (? & ? & ? & ? & ? & ?).
Qed.

Lemma teza_id_lower_eq text : teza_id (str_map lower text) = teza_id text.
Proof.
  unfold teza_id. rewrite search_lower by apply teza_pattern_lower.
  destruct (search teza_pattern text) as [m|] eqn:E; [|done]. simpl.
  f_equal. apply search_digits in E as [_ Hd].
  assert (group1 (str_map lower <$> m) = str_map lower (group1 m)) as ->.
  { unfold group1. rewrite list_lookup_fmap. by destruct (m !! 5%nat). }
  by rewrite str_map_lower_digits.
Qed.

(** X6, group ids.  A marker id is never negative, and every key of the
    dictionary that [parse_pdf] builds is the id read on a marker page of
    the document. *)
Theorem group_ids_from_markers (pages : list string) (g : Z) :
  is_Some (exams (classify pages) !! g) →
  0 ≤ g ∧ ∃ p text, pages !! p = Some text ∧ teza_id text = Some g.
Proof.
  intros [l Hl].
  destruct (classify_groups_shape pages g l Hl)
    as ((p & rest & text & _ & Hp & Ht) & _).
  split; [by eapply teza_id_nonneg|eauto].
Qed.

(** The group read from ["Teza 007"]. *)
Lemma group_ids_from_markers_witness :
  0 ≤ 7 ∧ ∃ p text, ["a"; "Teza 007"] !! p = Some text ∧ teza_id text = Some 7.
Proof.
  apply (group_ids_from_markers ["a"; "Teza 007"] 7).
  vm_compute. eexists. reflexivity.
Defined.

(** X7, letter case.  The marker test does not depend on the case of the
    letters of the page text: a text and its lower-case form give the same
    id or both give none, so a document and its lower-case form are grouped
    alike. *)
Theorem classification_ignores_case :
  (∀ text, teza_id (str_map lower text) = teza_id text) ∧
  (∀ pages, parse_pdf (str_map lower <$> pages) = parse_pdf pages).
Proof.
  split; [apply teza_id_lower_eq|].
  intros pages. unfold parse_pdf. apply parse_loop_ext.
  apply Forall2_fmap_l, Forall_Forall2_diag, Forall_forall.
  intros text _. apply teza_id_lower_eq.
Qed.

End ReMore.

(** ** The order of the slots and the size of the output *)

Section output_size.

Lemma sorted_keys_NoDup (ex : gmap Z (list nat)) : NoDup (sorted_keys ex).
Proof.
  unfold sorted_keys. rewrite merge_sort_Permutation.
  apply NoDup_fst_map_to_list.
Qed.

Lemma sorted_keys_length (ex : gmap Z (list nat)) :
  length (sorted_keys ex) = size ex.
Proof.
  unfold sorted_keys. rewrite merge_sort_Permutation, length_fmap.
  apply length_map_to_list.
Qed.

Lemma sorted_NoDup_strict (l : list Z) :
  StronglySorted Z.le l → NoDup l → StronglySorted Z.lt l.
Proof.
  induction 1 as [|x l Hl IH Hx]; intros Hnd; [constructor|].
  apply NoDup_cons in Hnd as [Hnin Hnd]. constructor; [by apply IH|].
  rewrite Forall_forall in Hx |- *. intros y Hy. specialize (Hx y Hy).
  assert (x ≠ y) by (intros ->; done). lia.
Qed.

Lemma sorted_keys_strict (ex : gmap Z (list nat)) :
  StronglySorted Z.lt (sorted_keys ex).
Proof.
  apply sorted_NoDup_strict; [|apply sorted_keys_NoDup].
  unfold sorted_keys. apply StronglySorted_merge_sort; apply _.
Qed.

Lemma pairs_length {A} (P : A → list sheet → Prop) (bs : list A) prs :
  Forall2 P bs prs → (∀ b pair, P b pair → length pair = 2%nat) →
  length (concat prs) = (2 * length bs)%nat.
Proof.
  intros H HP. induction H as [|b pair bs prs Hb H IH]; [done|].
  simpl. rewrite length_app, IH, (HP b pair Hb). lia.
Qed.

Lemma layout_length e ex out :
  (∀ k, add_page_ok e k = true) →
  layout e ex = Ok out →
  length out
  = (2 * (length (batches (sorted_keys ex))
          + length (batches (long_groups ex))))%nat.
Proof.
  intros Ha. unfold layout. intros (w & Hw & H)%bind_ok.
  rewrite third_page_exams_eq in H by (intros g; apply elem_of_sorted_keys).
  simpl in H. fold (long_groups ex) in H.
  apply bind_ok in H as (w' & Hw' & [= <-]).
  destruct (primary_loop_pairs _ _ _ _ _ _ Ha Hw) as (prs & Hprs & HF).
  simpl in Hprs.
  assert (length (sheets w) = (2 * length (batches (sorted_keys ex)))%nat)
    as Hlen.
  { rewrite Hprs. eapply pairs_length; [exact HF|].
    by intros b pair (? & ? & -> & _). }
  case_decide as Hnil.
  - injection Hw' as <-. rewrite Hnil. simpl. lia.
  - destruct (third_loop_pairs _ _ _ _ _ Ha Hw') as (sup & -> & Hsup).
    rewrite length_app, Hlen.
    erewrite (pairs_length _ _ sup); [|exact Hsup|]; [lia|].
    by intros b pair (? & -> & _).
Qed.

Lemma batches_length_eq (ids : list Z) :
  length (batches ids) = ((length ids + 5) / 6)%nat.
Proof.
  unfold batches, py_range. rewrite length_fmap, range_aux_length by lia.
  by rewrite Nat.sub_0_r.
Qed.

End output_size.

(** X8, the order of the groups on the sheets.  The slots of the primary
    batches that hold a group, read batch after batch, list the keys of the
    dictionary in strictly ascending order, each of them once. *)
Theorem batch_slots_ascending (ex : gmap Z (list nat)) :
  StronglySorted Z.lt (concat (not_none <$> batches (sorted_keys ex))) ∧
  (∀ g, g ∈ concat (not_none <$> batches (sorted_keys ex)) ↔
        is_Some (ex !! g)) ∧
  length (concat (not_none <$> batches (sorted_keys ex))) = size ex.
Proof.
  rewrite batches_concat. split_and!.
  - apply sorted_keys_strict.
  - apply elem_of_sorted_keys.
  - apply sorted_keys_length.
Qed.

(** X9, the number of pages of the output.  With [n] groups of which [m]
    have three pages or more, a run that writes its output writes at most
    [2 * (ceil(n / 6) + ceil(m / 6))] pages, and exactly that many when no
    append fails. *)
Theorem output_length (e : env) (pages : list string) (out : list sheet) :
  reformat_pdf e pages = Ok out →
  let n := size (exams (classify pages)) in
  let m := length (long_groups (exams (classify pages))) in
  (length out ≤ 2 * ((n + 5) / 6 + (m + 5) / 6))%nat ∧
  ((∀ k, add_page_ok e k = true) →
   length out = (2 * ((n + 5) / 6 + (m + 5) / 6))%nat).
Proof.
  intros Hout n m. unfold reformat_pdf in Hout.
  rewrite parse_pdf_ok in Hout. simpl in Hout.
  assert (∀ e' out', (∀ k, add_page_ok e' k = true) →
            layout e' (exams (classify pages)) = Ok out' →
            length out' = (2 * ((n + 5) / 6 + (m + 5) / 6))%nat) as Hlen.
  { intros e' out' Ha H. rewrite (layout_length _ _ _ Ha H).
    by rewrite !batches_length_eq, sorted_keys_length. }
  split; [|intros Ha; by apply (Hlen e out)].
  destruct (layout_sublist _ _ _ Hout) as (out' & Hout' & Hsub).
  rewrite <- (Hlen (appends_ok e) out'); [by apply sublist_length|done|done].
Qed.

(** One group of one page, and a failing second append. *)
Lemma output_length_witness :
  (length [GridSheet [DrawTitle "Batch 1 - First Pages"; DrawRect 0 0;
                      DrawLabel 0 0 "E1-P1"; DrawImage 0 0 0]]
   ≤ 2 * ((size (exams (classify ["TEZA 1"])) + 5) / 6
          + (length (long_groups (exams (classify ["TEZA 1"]))) + 5) / 6))%nat ∧
  ((∀ k, add_page_ok (env_append_fails 1) k = true) →
   length [GridSheet [DrawTitle "Batch 1 - First Pages"; DrawRect 0 0;
                      DrawLabel 0 0 "E1-P1"; DrawImage 0 0 0]]
   = (2 * ((size (exams (classify ["TEZA 1"])) + 5) / 6
           + (length (long_groups (exams (classify ["TEZA 1"]))) + 5) / 6))%nat).
Proof.
  apply (output_length (env_append_fails 1) ["TEZA 1"]). reflexivity.
Defined.

(** X10, the pages asked of the rasterizer.  Every page shown on a sheet
    of the output is a page of the source document: its index is below the
    number of pages. *)
Theorem shown_pages_in_range (e : env) (pages : list string)
    (out : list sheet) (s : sheet) (p : nat) :
  reformat_pdf e pages = Ok out → s ∈ out → p ∈ sheet_images s →
  (p < length pages)%nat.
Proof.
  intros Hout Hs Hp. unfold reformat_pdf in Hout.
  rewrite parse_pdf_ok in Hout. simpl in Hout.
  apply layout_ranked in Hout. rewrite Forall_forall in Hout.
  destruct (Hout s Hs p Hp) as (g & l & r & _ & Hl & Hr & _).
  destruct (classify_groups_shape pages g l Hl) as (_ & _ & Hb).
  rewrite Forall_forall in Hb. apply Hb. by eapply list_elem_of_lookup_2.
Qed.

(** The front sheet of a document of one page. *)
Lemma shown_pages_in_range_witness : (0 < length ["TEZA 1"])%nat.
Proof.
  apply (shown_pages_in_range env_ok ["TEZA 1"]
           [GridSheet [DrawTitle "Batch 1 - First Pages"; DrawRect 0 0;
                       DrawLabel 0 0 "E1-P1"; DrawImage 0 0 0]; BlankSheet]
           (GridSheet [DrawTitle "Batch 1 - First Pages"; DrawRect 0 0;
                       DrawLabel 0 0 "E1-P1"; DrawImage 0 0 0]) 0).
  - reflexivity.
  - left.
  - vm_compute. left.
Defined.

(** ** The pages on the sheets *)

Section shown_pages.

Lemma output_images_app (a b : list sheet) :
  output_images (a ++ b) = output_images a ++ output_images b.
Proof. unfold output_images. by rewrite fmap_app, concat_app. Qed.

Lemma elem_of_output_images out p :
  p ∈ output_images out ↔ ∃ s, s ∈ out ∧ p ∈ sheet_images s.
Proof.
  unfold output_images. split.
  - intros (l & (s & -> & Hs)%list_elem_of_fmap & Hp)%elem_of_concat. eauto.
  - intros (s & Hs & Hp). induction out as [|s' out IH]; simpl.
    + by apply elem_of_nil in Hs.
    + apply elem_of_app. apply elem_of_cons in Hs as [->|Hs]; auto.
Qed.

Lemma omap_cell_page_nil cells :
  existsb cell_full cells = false → omap cell_page cells = [].
Proof.
  induction cells as [|[[g|] [p|]] cells IH]; simpl; auto. done.
Qed.

Lemma back_slots_perm (batch : list (option Z)) :
  length batch = 6%nat → back_order batch = Ok (back_slots batch) ∧
                         back_slots batch ≡ₚ batch.
Proof.
  intros Hlen. unfold back_slots.
  by destruct (back_order_total batch Hlen) as (bo & -> & Hperm).
Qed.

(** The pages that one round of the primary loop adds to the output. *)
Lemma primary_step_images e ex n w batch w' :
  (∀ k, add_page_ok e k = true) →
  primary_step e ex n w batch = Ok w' →
  output_images (sheets w')
  = output_images (sheets w)
    ++ omap (resolve ex 0) batch ++ omap (resolve ex 1) (back_slots batch).
Proof.
  intros Ha Hs.
  apply primary_step_ok in Hs
    as (front & hc0 & bo & back & hc & Hf & Hbo & Hb & ->).
  rewrite try_add_two_all by done. rewrite output_images_app. f_equal.
  unfold output_images, back_slots. rewrite Hbo. simpl. rewrite app_nil_r.
  apply create_grid_page_ok in Hf as [_ ->].
  apply create_grid_page_ok in Hb as [-> Hback].
  rewrite omap_cell_page by done. f_equal.
  rewrite <- (omap_cell_page (resolve ex 1) bo) by done.
  destruct (existsb cell_full (zip bo (resolve ex 1 <$> bo))) eqn:E; [done|].
  simpl. symmetry. by apply omap_cell_page_nil.
Qed.

Lemma primary_loop_images e ex n w bs w' :
  (∀ k, add_page_ok e k = true) →
  primary_loop e ex n w bs = Ok w' →
  output_images (sheets w')
  = output_images (sheets w)
    ++ concat ((λ b, omap (resolve ex 0) b
                     ++ omap (resolve ex 1) (back_slots b)) <$> bs).
Proof.
  intros Ha. revert n w. induction bs as [|b bs IH]; intros n w; simpl.
  - intros [= <-]. by rewrite app_nil_r.
  - intros (w1 & Hs & Hl)%bind_ok.
    rewrite (IH _ _ Hl), (primary_step_images _ _ _ _ _ _ Ha Hs).
    by rewrite <- !app_assoc.
Qed.

Lemma third_loop_images e ex w bs w' :
  (∀ k, add_page_ok e k = true) →
  third_loop e ex w bs = Ok w' →
  output_images (sheets w')
  = output_images (sheets w) ++ concat ((λ b : list (option Z), omap (resolve ex 2) b) <$> bs).
Proof.
  intros Ha. revert w. induction bs as [|b bs IH]; intros w; simpl.
  - intros [= <-]. by rewrite app_nil_r.
  - intros (w1 & Hs & Hl)%bind_ok. rewrite (IH _ Hl).
    apply third_step_ok in Hs as (third & hc & Ht & ->).
    rewrite try_add_two_all by done. rewrite output_images_app.
    rewrite <- !app_assoc. do 2 f_equal.
    unfold output_images. simpl. rewrite app_nil_r.
    apply create_grid_page_ok in Ht as [_ ->]. by apply omap_cell_page.
Qed.

(** The pages of the output of a run without append failures. *)
Lemma layout_images e ex out :
  (∀ k, add_page_ok e k = true) →
  layout e ex = Ok out →
  output_images out
  = concat ((λ b, omap (resolve ex 0) b
                  ++ omap (resolve ex 1) (back_slots b))
            <$> batches (sorted_keys ex))
    ++ concat ((λ b : list (option Z), omap (resolve ex 2) b)
              <$> batches (long_groups ex)).
Proof.
  intros Ha. unfold layout. intros (w & Hw & H)%bind_ok.
  rewrite third_page_exams_eq in H by (intros g; apply elem_of_sorted_keys).
  simpl in H. fold (long_groups ex) in H.
  apply bind_ok in H as (w' & Hw' & [= <-]).
  apply (primary_loop_images _ _ _ _ _ _ Ha) in Hw. simpl in Hw.
  case_decide as Hnil.
  - injection Hw' as <-. rewrite Hnil, Hw. simpl. by rewrite app_nil_r.
  - by rewrite (third_loop_images _ _ _ _ _ Ha Hw'), Hw.
Qed.

Lemma elem_of_omap_resolve ex r (slots : list (option Z)) p :
  p ∈ omap (resolve ex r) slots ↔
  ∃ g l, Some g ∈ slots ∧ g ≠ 0 ∧ ex !! g = Some l ∧ l !! r = Some p.
Proof.
  rewrite list_elem_of_omap. split.
  - intros (x & Hx & (g & l & -> & ? & ? & ?)%resolve_Some). eauto 10.
  - intros (g & l & Hg & ? & ? & ?). exists (Some g). split; [done|].
    by eapply resolve_hit.
Qed.

Lemma elem_of_concat_fmap {A B} (f : A → list B) (l : list A) (y : B) :
  y ∈ concat (f <$> l) ↔ ∃ x, x ∈ l ∧ y ∈ f x.
Proof.
  split.
  - intros (k & (x & -> & Hx)%list_elem_of_fmap & Hy)%elem_of_concat. eauto.
  - intros (x & Hx & Hy). induction l as [|x' l IH]; simpl.
    + by apply elem_of_nil in Hx.
    + apply elem_of_app. apply elem_of_cons in Hx as [->|Hx]; auto.
Qed.

Lemma layout_shows e ex out p :
  (∀ k, add_page_ok e k = true) → layout e ex = Ok out →
  p ∈ output_images out ↔ shown_page ex p.
Proof.
  intros Ha Hout. split.
  - intros (s & Hs & Hp)%elem_of_output_images.
    apply layout_ranked in Hout. rewrite Forall_forall in Hout.
    by apply (Hout s Hs p Hp).
  - intros (g & l & r & Hg & Hl & Hr & Hle).
    rewrite (layout_images _ _ _ Ha Hout).
    assert (g ∈ sorted_keys ex) as Hkey by (apply elem_of_sorted_keys; eauto).
    apply elem_of_app.
    destruct (decide (r ≤ 1)%nat) as [Hr1|Hr1].
    + left. destruct (batches_cover _ _ Hkey) as (b & Hb & Hin).
      apply elem_of_concat_fmap. exists b. split; [done|].
      apply elem_of_app.
      destruct (back_slots_perm b (batches_length _ _ Hb)) as [_ Hperm].
      assert (r = 0 ∨ r = 1)%nat as [-> | ->] by lia;
        [left|right]; apply elem_of_omap_resolve; exists g, l;
        split_and!; try done. by rewrite Hperm.
    + right. assert (r = 2%nat) as -> by lia.
      assert (g ∈ long_groups ex) as Hlong.
      { apply list_elem_of_filter. split; [|done]. unfold pages_of.
        rewrite Hl. simpl. apply lookup_lt_Some in Hr. lia. }
      destruct (batches_cover _ _ Hlong) as (b & Hb & Hin).
      apply elem_of_concat_fmap. exists b. split; [done|].
      apply elem_of_omap_resolve. by exists g, l.
Qed.

End shown_pages.

(** X11, which pages are shown.  In a run in which no append fails and
    that writes its output, a source page is shown on some sheet exactly
    when it is the first, second or third page of a group whose id is not
    zero. *)
Theorem shown_pages_exact (e : env) (pages : list string) (out : list sheet) :
  (∀ k, add_page_ok e k = true) → reformat_pdf e pages = Ok out →
  ∀ p, (∃ s, s ∈ out ∧ p ∈ sheet_images s) ↔
       ∃ g l r, g ≠ 0 ∧ exams (classify pages) !! g = Some l ∧
                l !! r = Some p ∧ (r ≤ 2)%nat.
Proof.
  intros Ha Hout p. unfold reformat_pdf in Hout.
  rewrite parse_pdf_ok in Hout. simpl in Hout.
  rewrite <- elem_of_output_images. by apply (layout_shows e).
Qed.

(** A group of four pages: the fourth is not shown. *)
Lemma shown_pages_exact_witness :
  (∃ s, s ∈ [GridSheet [DrawTitle "Batch 1 - First Pages"; DrawRect 0 0;
                        DrawLabel 0 0 "E9-P1"; DrawImage 0 0 0];
             GridSheet [DrawTitle "Batch 1 - Second Pages"; DrawRect 0 2;
                        DrawLabel 0 2 "E9-P2"; DrawImage 0 2 1];
             GridSheet [DrawTitle "Third Pages - Exams [9]"; DrawRect 0 0;
                        DrawLabel 0 0 "E9-P3"; DrawImage 0 0 2];
             BlankSheet] ∧ 3%nat ∈ sheet_images s) ↔
  ∃ g l r, g ≠ 0 ∧
           exams (classify ["TEZA 9"; "a"; "b"; "c"]) !! g = Some l ∧
           l !! r = Some 3%nat ∧ (r ≤ 2)%nat.
Proof.
  apply (shown_pages_exact env_ok ["TEZA 9"; "a"; "b"; "c"]); reflexivity.
Defined.

(** ** No page is shown twice *)

Section no_repeat.

Local Arguments resolve : simpl never.

Lemma concat_fmap_app_perm {A B} (f g : A → list B) (l : list A) :
  concat ((λ x, f x ++ g x) <$> l) ≡ₚ concat (f <$> l) ++ concat (g <$> l).
Proof.
  induction l as [|x l IH]; simpl; [done|]. rewrite IH.
  rewrite <- !app_assoc. apply Permutation_app_head.
  rewrite !app_assoc. apply Permutation_app_tail, Permutation_app_comm.
Qed.

Lemma concat_fmap_perm {A B} (f g : A → list B) (l : list A) :
  (∀ x, x ∈ l → f x ≡ₚ g x) → concat (f <$> l) ≡ₚ concat (g <$> l).
Proof.
  induction l as [|x l IH]; intros H; simpl; [done|].
  apply Permutation_app; [apply H; by left|].
  apply IH. intros y Hy. apply H. by right.
Qed.

Lemma omap_resolve_concat ex r (bs : list (list (option Z))) :
  concat ((λ b : list (option Z), omap (resolve ex r) b) <$> bs)
  = omap (λ g, resolve ex r (Some g)) (concat (not_none <$> bs)).
Proof.
  induction bs as [|b bs IH]; [done|].
  rewrite !fmap_cons. cbn [concat]. rewrite IH, omap_app. f_equal.
  unfold not_none. clear. induction b as [|[g|] b IH]; simpl; [done|..].
  - destruct (resolve ex r (Some g)); [f_equal|]; exact IH.
  - exact IH.
Qed.

Lemma sublist_output_images (out out' : list sheet) :
  out `sublist_of` out' → output_images out `sublist_of` output_images out'.
Proof.
  unfold output_images. induction 1 as [|s l1 l2 H IH|s l1 l2 H IH]; simpl.
  - done.
  - by apply sublist_app.
  - by apply sublist_inserts_l.
Qed.

Lemma NoDup_omap_resolve pages r (ids : list Z) :
  NoDup ids →
  NoDup (omap (λ g, resolve (exams (classify pages)) r (Some g)) ids).
Proof.
  induction 1 as [|g ids Hnin Hnd IH]; simpl; [constructor|].
  destruct (resolve _ r (Some g)) as [p|] eqn:E; [|done].
  constructor; [|done].
  intros (g' & Hg' & E')%list_elem_of_omap.
  apply resolve_Some in E as (g1 & l & [= <-] & _ & Hl & Hp).
  apply resolve_Some in E' as (g2 & l' & [= <-] & _ & Hl' & Hp').
  assert (g = g') as -> ; [|done].
  apply (classify_disjoint pages g g' l l' p); try done;
    by eapply list_elem_of_lookup_2.
Qed.

Lemma omap_resolve_apart pages r r' (ids ids' : list Z) p :
  r ≠ r' →
  p ∈ omap (λ g, resolve (exams (classify pages)) r (Some g)) ids →
  p ∉ omap (λ g, resolve (exams (classify pages)) r' (Some g)) ids'.
Proof.
  intros Hne (g & _ & E)%list_elem_of_omap (g' & _ & E')%list_elem_of_omap.
  apply resolve_Some in E as (g1 & l & [= <-] & _ & Hl & Hp).
  apply resolve_Some in E' as (g2 & l' & [= <-] & _ & Hl' & Hp').
  assert (g = g') as <-.
  { apply (classify_disjoint pages g g' l l' p); try done;
      by eapply list_elem_of_lookup_2. }
  assert (l' = l) as -> by congruence.
  apply Hne. by eapply NoDup_lookup; [eapply classify_NoDup|..].
Qed.

Lemma layout_images_NoDup e pages out :
  (∀ k, add_page_ok e k = true) →
  layout e (exams (classify pages)) = Ok out →
  NoDup (output_images out).
Proof.
  intros Ha Hout. set (ex := exams (classify pages)) in *.
  rewrite (layout_images _ _ _ Ha Hout).
  rewrite concat_fmap_app_perm.
  rewrite (concat_fmap_perm
             (λ b, omap (resolve ex 1) (back_slots b))
             (λ b, omap (resolve ex 1) b)).
  2:{ intros b Hb. f_equiv. by apply back_slots_perm, (batches_length _ _ Hb). }
  rewrite !omap_resolve_concat, !batches_concat.
  pose proof (sorted_keys_NoDup ex) as Hnd.
  assert (NoDup (long_groups ex)) as Hnd3 by by apply NoDup_filter.
  apply NoDup_app. split_and!.
  - apply NoDup_app. split_and!; [by apply NoDup_omap_resolve| |
      by apply NoDup_omap_resolve].
    intros p. by apply omap_resolve_apart.
  - intros p [Hp|Hp]%elem_of_app; by eapply omap_resolve_apart; [|exact Hp].
  - by apply NoDup_omap_resolve.
Qed.

End no_repeat.

(** X12, no page twice.  In every run that writes its output, no source
    page is shown twice: the pages shown on the sheets of the output, taken
    sheet after sheet, are all different. *)
Theorem no_page_shown_twice (e : env) (pages : list string)
    (out : list sheet) :
  reformat_pdf e pages = Ok out → NoDup (output_images out).
Proof.
  intros Hout. unfold reformat_pdf in Hout.
  rewrite parse_pdf_ok in Hout. simpl in Hout.
  destruct (layout_sublist _ _ _ Hout) as (out' & Hout' & Hsub).
  apply (sublist_NoDup _ (output_images out'));
    [|by apply sublist_output_images].
  by apply (layout_images_NoDup (appends_ok e) pages).
Qed.

(** A group that is resumed after another one. *)
Lemma no_page_shown_twice_witness :
  NoDup (output_images
    [GridSheet [DrawTitle "Batch 1 - First Pages";
                DrawRect 0 0; DrawLabel 0 0 "E1-P1"; DrawImage 0 0 0;
                DrawRect 0 1; DrawLabel 0 1 "E2-P1"; DrawImage 0 1 1];
     GridSheet [DrawTitle "Batch 1 - Second Pages";
                DrawRect 0 2; DrawLabel 0 2 "E1-P3"; DrawImage 0 2 2]]).
Proof.
  apply (no_page_shown_twice env_ok ["TEZA 1"; "TEZA 2"; "TEZA 1"]).
  reflexivity.
Defined.

(** ** Cells: positions, labels, front and back *)

Section cells.

Lemma create_grid_page_is_sheet e ex nums idxs title s hc :
  create_grid_page e ex nums idxs title = Ok (s, hc) →
  s = sheet_of ex title (zip nums idxs).
Proof.
  unfold create_grid_page. intros ([ops hc'] & H & [= <- <-])%bind_ok.
  by apply grid_loop_sheet in H as ->.
Qed.

Lemma elem_of_cell_ops ex title cells o c :
  c ∈ full_cells 0 cells → o ∈ cell_ops ex c →
  o ∈ sheet_ops (sheet_of ex title cells).
Proof.
  intros Hc Ho. simpl. apply elem_of_app. right.
  apply elem_of_concat_fmap. by exists c.
Qed.

Lemma sheet_of_image ex title cells i g p :
  cells !! i = Some (Some g, Some p) →
  DrawImage (i / grid_cols) (i mod grid_cols) p
    ∈ sheet_ops (sheet_of ex title cells).
Proof.
  intros Hi. apply (elem_of_cell_ops _ _ _ _ (i, g, p)).
  - apply elem_of_full_cells. by exists i.
  - simpl. do 2 right. left.
Qed.

Lemma omap_concat_cells {B} (f : draw_op → option B) (h : nat * Z * nat → B)
    ex (fc : list (nat * Z * nat)) :
  (∀ c, omap f (cell_ops ex c) = [h c]) →
  omap f (concat (cell_ops ex <$> fc)) = h <$> fc.
Proof.
  intros Hf. induction fc as [|c fc IH]; [done|].
  rewrite !fmap_cons. cbn [concat]. by rewrite omap_app, Hf, IH.
Qed.

Lemma sheet_labels_of ex title cells :
  sheet_labels (sheet_of ex title cells)
  = (λ c : nat * Z * nat, label_text c.1.2 c.2 (first_of ex c.1.2))
    <$> full_cells 0 cells.
Proof.
  unfold sheet_labels, sheet_of, sheet_ops. rewrite omap_app.
  rewrite (omap_concat_cells op_label
             (λ c, label_text c.1.2 c.2 (first_of ex c.1.2)))
    by (by intros [[i g] p]).
  unfold title_ops. by destruct (decide (title = "")).
Qed.

Lemma sheet_rects_of ex title cells :
  sheet_rects (sheet_of ex title cells)
  = (λ i, (i / grid_cols, i mod grid_cols)%nat) <$> (full_cells 0 cells).*1.*1.
Proof.
  unfold sheet_rects, sheet_of, sheet_ops. rewrite omap_app.
  rewrite (omap_concat_cells op_rect
             (λ c, (c.1.1 / grid_cols, c.1.1 mod grid_cols)%nat))
    by (by intros [[i g] p]).
  rewrite <- !list_fmap_compose.
  unfold title_ops. by destruct (decide (title = "")).
Qed.

Lemma zip_resolve_lookup ex r (slots : list (option Z)) j g p :
  slots !! j = Some (Some g) → g ≠ 0 → pages_of ex g !! r = Some p →
  zip slots (resolve ex r <$> slots) !! j = Some (Some g, Some p).
Proof.
  intros Hj Hg Hp. apply lookup_zip_with_Some.
  exists (Some g), (Some p). split_and!; [done..|].
  rewrite list_lookup_fmap, Hj. simpl. by rewrite bool_decide_eq_true_2, Hp.
Qed.

Lemma sheet_of_label ex title cells row col t :
  DrawLabel row col t ∈ sheet_ops (sheet_of ex title cells) ↔
  ∃ j g p, cells !! j = Some (Some g, Some p) ∧
    row = (j / grid_cols)%nat ∧ col = (j mod grid_cols)%nat ∧
    t = label_text g p (first_of ex g).
Proof.
  unfold sheet_of, sheet_ops. rewrite elem_of_app, elem_of_concat_fmap. split.
  - intros [Ht|([[i g] p] & Hc & Ho)].
    + unfold title_ops in Ht. destruct (decide (title = "")).
      * by apply elem_of_nil in Ht.
      * by apply list_elem_of_singleton in Ht.
    + apply elem_of_full_cells in Hc as (j & -> & Hj). exists j, g, p.
      cbn [cell_ops] in Ho. rewrite !elem_of_cons in Ho.
      destruct Ho as [Ho|[Ho|[Ho|Ho]]]; try done; [|by apply elem_of_nil in Ho].
      by injection Ho as -> -> ->.
  - intros (j & g & p & Hj & -> & -> & ->). right. exists (j, g, p). split.
    + apply elem_of_full_cells. by exists j.
    + cbn [cell_ops]. right. left.
Qed.

Lemma position_inj (i j : nat) :
  (i / grid_cols, i mod grid_cols)%nat = (j / grid_cols, j mod grid_cols)%nat →
  i = j.
Proof.
  intros H.
  assert (i / grid_cols = j / grid_cols ∧ i mod grid_cols = j mod grid_cols)%nat
    as [Hd Hm] by (split; congruence).
  pose proof (Nat.div_mod_eq i grid_cols). pose proof (Nat.div_mod_eq j grid_cols).
  rewrite Hd, Hm in *. lia.
Qed.

End cells.

(** X13, the back side behind the front side.  On the pair of sheets of
    a primary batch, when no append fails, a group whose id is not zero and
    that sits in slot [i] has its first page on the front sheet at row
    [i // 3], column [i % 3], and its second page, if it has one, on the
    back sheet in the same row at the mirrored column [2 - i % 3]: the
    place that lies behind it once the sheet is flipped. *)
Theorem back_behind_front (e : env) (ex : gmap Z (list nat)) (n : nat)
    (w w' : writer) (batch : list (option Z)) (i : nat) (g : Z) :
  (∀ k, add_page_ok e k = true) →
  primary_step e ex n w batch = Ok w' →
  (i < 6)%nat → batch !! i = Some (Some g) → g ≠ 0 →
  ∃ front back,
    sheets w' = sheets w ++ [front; back] ∧
    (mirror i / grid_cols = i / grid_cols)%nat ∧
    (mirror i mod grid_cols = 2 - i mod grid_cols)%nat ∧
    (∀ p, pages_of ex g !! 0%nat = Some p →
          DrawImage (i / grid_cols) (i mod grid_cols) p ∈ sheet_ops front) ∧
    (∀ p, pages_of ex g !! 1%nat = Some p →
          DrawImage (i / grid_cols) (2 - i mod grid_cols) p ∈ sheet_ops back).
Proof.
  intros Ha Hs Hi Hg Hne.
  apply primary_step_ok in Hs
    as (front & hc0 & bo & back & hc & Hf & Hbo & Hb & ->).
  exists front, (if hc then back else BlankSheet).
  assert (bo !! mirror i = Some (Some g) ∧
          mirror i / grid_cols = i / grid_cols ∧
          mirror i mod grid_cols = 2 - i mod grid_cols)%nat
    as (Hmi & Hrow & Hcol).
  { destruct batch as [|b0 [|b1 [|b2 [|b3 [|b4 [|b5 rest]]]]]]; try done.
    injection Hbo as <-.
    destruct i as [|[|[|[|[|[|]]]]]]; [..|lia]; simpl in Hg;
      injection Hg as ->; done. }
  split_and!; [by apply try_add_two_all|done..| |].
  - intros p Hp. rewrite (create_grid_page_is_sheet _ _ _ _ _ _ _ Hf).
    apply (sheet_of_image _ _ _ _ g). by apply zip_resolve_lookup.
  - intros p Hp.
    pose proof (zip_resolve_lookup ex 1 bo (mirror i) g p Hmi Hne Hp) as Hcell.
    pose proof (create_grid_page_ok _ _ _ _ _ _ _ Hb) as [Hhc _].
    assert (hc = true) as ->.
    { rewrite Hhc. apply existsb_elem. exists (Some g, Some p).
      split; [by eapply list_elem_of_lookup_2|done]. }
    rewrite (create_grid_page_is_sheet _ _ _ _ _ _ _ Hb).
    rewrite <- Hrow, <- Hcol. by apply (sheet_of_image _ _ _ _ g).
Qed.

(** Group 5 of two pages in the second slot of its batch. *)
Lemma back_behind_front_witness :
  ∃ front back,
    sheets (Writer [sheet_of {[4 := [0%nat]; 5 := [1; 2]%nat]}
                      "Batch 1 - First Pages"
                      [(Some 4, Some 0%nat); (Some 5, Some 1%nat)];
                    sheet_of {[4 := [0%nat]; 5 := [1; 2]%nat]}
                      "Batch 1 - Second Pages"
                      [(None, None); (Some 5, Some 2%nat)]] 2)
    = sheets (Writer [] 0) ++ [front; back] ∧
    (mirror 1 / grid_cols = 1 / grid_cols)%nat ∧
    (mirror 1 mod grid_cols = 2 - 1 mod grid_cols)%nat ∧
    (∀ p, pages_of {[4 := [0%nat]; 5 := [1; 2]%nat]} 5 !! 0%nat = Some p →
          DrawImage (1 / grid_cols) (1 mod grid_cols) p ∈ sheet_ops front) ∧
    (∀ p, pages_of {[4 := [0%nat]; 5 := [1; 2]%nat]} 5 !! 1%nat = Some p →
          DrawImage (1 / grid_cols) (2 - 1 mod grid_cols) p ∈ sheet_ops back).
Proof.
  apply (back_behind_front env_ok {[4 := [0%nat]; 5 := [1; 2]%nat]} 1
           (Writer [] 0) _ (batch_at [4; 5] 0) 1 5).
  - reflexivity.
  - reflexivity.
  - lia.
  - reflexivity.
  - discriminate.
Defined.

(** X14, the labels.  On a front sheet every label reads [E<id>-P1].  On
    the sheet that shows the pages of rank [r], every label lies in the
    cell of a slot that holds a group with a non-zero id, next to the image
    of the page of rank [r] of that group, and reads the id of that group
    and the distance of the page from the first page of that group, plus
    one.  Conversely the cell of slot [j], when the slot holds a group with
    a non-zero id that has a page of rank [r], carries this label and no
    other; the label reads [E<id>-P<r+1>] exactly when the page lies [r]
    pages after the first page of its own group, whatever the other groups
    on the sheet are. *)
Theorem labels_read_rank :
  (∀ e ex nums title s hc,
     create_grid_page e ex nums (resolve ex 0 <$> nums) title = Ok (s, hc) →
     Forall (λ t, ∃ g, Some g ∈ nums ∧ t = "E" +:+ pretty g +:+ "-P1")
       (sheet_labels s)) ∧
  (∀ e ex r nums title s hc row col t,
     create_grid_page e ex nums (resolve ex r <$> nums) title = Ok (s, hc) →
     DrawLabel row col t ∈ sheet_ops s →
     ∃ j g l first p,
       row = (j / grid_cols)%nat ∧ col = (j mod grid_cols)%nat ∧
       nums !! j = Some (Some g) ∧ g ≠ 0 ∧ ex !! g = Some l ∧
       l !! 0%nat = Some first ∧ l !! r = Some p ∧
       t = label_text g p first ∧
       DrawImage row col p ∈ sheet_ops s) ∧
  (∀ e ex r nums title s hc j g l first p,
     create_grid_page e ex nums (resolve ex r <$> nums) title = Ok (s, hc) →
     nums !! j = Some (Some g) → g ≠ 0 →
     ex !! g = Some l → l !! 0%nat = Some first → l !! r = Some p →
     DrawLabel (j / grid_cols) (j mod grid_cols) (label_text g p first)
       ∈ sheet_ops s ∧
     (∀ t, DrawLabel (j / grid_cols) (j mod grid_cols) t ∈ sheet_ops s →
           t = label_text g p first) ∧
     (label_text g p first
      = "E" +:+ pretty g +:+ "-P" +:+ pretty (Z.of_nat r + 1)
      ↔ p = (first + r)%nat)).
Proof.
  assert (∀ ex g l first, ex !! g = Some l → l !! 0%nat = Some first →
            first_of ex g = first) as Hfirst.
  { intros ex g l first Hl H0. unfold first_of, pages_of. rewrite Hl. simpl.
    by rewrite H0. }
  assert (∀ e ex r nums title s hc row col t,
     create_grid_page e ex nums (resolve ex r <$> nums) title = Ok (s, hc) →
     DrawLabel row col t ∈ sheet_ops s →
     ∃ j g l first p,
       row = (j / grid_cols)%nat ∧ col = (j mod grid_cols)%nat ∧
       nums !! j = Some (Some g) ∧ g ≠ 0 ∧ ex !! g = Some l ∧
       l !! 0%nat = Some first ∧ l !! r = Some p ∧
       t = label_text g p first ∧
       DrawImage row col p ∈ sheet_ops s) as Hall.
  { intros e ex r nums title s hc row col t Hs Ht.
    rewrite (create_grid_page_is_sheet _ _ _ _ _ _ _ Hs) in Ht |- *.
    apply sheet_of_label in Ht as (j & g & p & Hj & -> & -> & ->).
    pose proof Hj as Hcell.
    apply lookup_zip_with_Some in Hj as (x & y & [= <- <-] & Hx & Hy).
    rewrite list_lookup_fmap, Hx in Hy. injection Hy as Hy.
    apply (resolve_Some ex r (Some g)) in Hy as (g' & l & [= <-] & Hg & Hl & Hp).
    destruct l as [|first l'] eqn:El; [done|].
    exists j, g, (first :: l'), first, p. split_and!; try done.
    - by rewrite (Hfirst ex g (first :: l') first).
    - by apply (sheet_of_image _ _ _ _ g). }
  split_and!.
  - intros e ex nums title s hc Hs.
    apply Forall_forall. intros t Ht. unfold sheet_labels in Ht.
    apply list_elem_of_omap in Ht as ([| |row col t'|] & Ho & [= ->]).
    destruct (Hall e ex 0%nat nums title s hc row col t Hs Ho)
      as (j & g & l & first & p & _ & _ & Hj & _ & _ & H0 & Hp & -> & _).
    exists g. split; [by eapply list_elem_of_lookup_2|].
    assert (p = first) as -> by congruence.
    unfold label_text.
    replace (Z.of_nat first - Z.of_nat first + 1) with 1 by lia. reflexivity.
  - exact Hall.
  - intros e ex r nums title s hc j g l first p Hs Hj Hg Hl H0 Hp.
    assert (zip nums (resolve ex r <$> nums) !! j = Some (Some g, Some p))
      as Hcell.
    { apply zip_resolve_lookup; [done..|]. unfold pages_of. by rewrite Hl. }
    rewrite (create_grid_page_is_sheet _ _ _ _ _ _ _ Hs).
    split_and!.
    + apply sheet_of_label. exists j, g, p.
      by rewrite (Hfirst ex g l first).
    + intros t (j' & g' & p' & Hj' & Hrow & Hcol & ->)%sheet_of_label.
      assert (j = j') as <- by (apply position_inj; congruence).
      rewrite Hcell in Hj'. injection Hj' as <- <-.
      by rewrite (Hfirst ex g l first).
    + unfold label_text. split.
      * intros Heq. do 3 apply (inj _) in Heq. apply (inj pretty) in Heq. lia.
      * intros ->. do 4 f_equal. lia.
Qed.

(** The back sheet of the pages ["TEZA 1"; "TEZA 2"; "x"; "TEZA 1"]: group
    2 is pages 1 and 2, and its cell reads ["E2-P2"]; group 1 is pages 0
    and 3, and its cell reads ["E1-P4"]. *)
Lemma labels_read_rank_witness :
  (DrawLabel (1 / grid_cols) (1 mod grid_cols) (label_text 2 2 1)
     ∈ sheet_ops (sheet_of {[1 := [0; 3]%nat; 2 := [1; 2]%nat]}
                    "Batch 1 - Second Pages"
                    [(None, None); (Some 2, Some 2%nat); (Some 1, Some 3%nat)]) ∧
   (∀ t, DrawLabel (1 / grid_cols) (1 mod grid_cols) t
           ∈ sheet_ops (sheet_of {[1 := [0; 3]%nat; 2 := [1; 2]%nat]}
                          "Batch 1 - Second Pages"
                          [(None, None); (Some 2, Some 2%nat);
                           (Some 1, Some 3%nat)]) →
         t = label_text 2 2 1) ∧
   (label_text 2 2 1 = "E" +:+ pretty 2 +:+ "-P" +:+ pretty (Z.of_nat 1 + 1)
    ↔ 2%nat = (1 + 1)%nat)) ∧
  (DrawLabel (2 / grid_cols) (2 mod grid_cols) (label_text 1 3 0)
     ∈ sheet_ops (sheet_of {[1 := [0; 3]%nat; 2 := [1; 2]%nat]}
                    "Batch 1 - Second Pages"
                    [(None, None); (Some 2, Some 2%nat); (Some 1, Some 3%nat)]) ∧
   (∀ t, DrawLabel (2 / grid_cols) (2 mod grid_cols) t
           ∈ sheet_ops (sheet_of {[1 := [0; 3]%nat; 2 := [1; 2]%nat]}
                          "Batch 1 - Second Pages"
                          [(None, None); (Some 2, Some 2%nat);
                           (Some 1, Some 3%nat)]) →
         t = label_text 1 3 0) ∧
   (label_text 1 3 0 = "E" +:+ pretty 1 +:+ "-P" +:+ pretty (Z.of_nat 1 + 1)
    ↔ 3%nat = (0 + 1)%nat)).
Proof.
  split.
  - apply (proj2 (proj2 labels_read_rank) env_ok
             {[1 := [0; 3]%nat; 2 := [1; 2]%nat]} 1%nat
             [None; Some 2; Some 1] "Batch 1 - Second Pages" _ true
             1%nat 2 [1; 2]%nat 1%nat 2%nat);
      [reflexivity|reflexivity|discriminate|reflexivity..].
  - apply (proj2 (proj2 labels_read_rank) env_ok
             {[1 := [0; 3]%nat; 2 := [1; 2]%nat]} 1%nat
             [None; Some 2; Some 1] "Batch 1 - Second Pages" _ true
             2%nat 1 [0; 3]%nat 0%nat 3%nat);
      [reflexivity|reflexivity|discriminate|reflexivity..].
Defined.

(** X15, the places of the cells.  The cells drawn on a sheet lie at
    different places of the grid, each in one of the three columns, and,
    when the sheet is given at most six positions, in one of the two
    rows. *)
Theorem cells_on_the_grid e ex nums idxs title s hc :
  create_grid_page e ex nums idxs title = Ok (s, hc) →
  NoDup (sheet_rects s) ∧
  Forall (λ rc, (rc.2 < grid_cols)%nat) (sheet_rects s) ∧
  ((length nums ≤ 6)%nat →
   Forall (λ rc, (rc.1 < grid_rows)%nat) (sheet_rects s)).
Proof.
  intros Hs.
  rewrite (create_grid_page_is_sheet _ _ _ _ _ _ _ Hs), sheet_rects_of.
  split_and!.
  - apply NoDup_fmap_2_strong; [|apply full_cells_NoDup].
    intros i j _ _. apply position_inj.
  - apply Forall_fmap, Forall_forall. intros i _.
    change (i mod grid_cols < grid_cols)%nat.
    apply Nat.mod_upper_bound. done.
  - intros Hlen. apply Forall_fmap, Forall_forall.
    intros i (c & -> & (c' & -> & Hc)%list_elem_of_fmap)%list_elem_of_fmap.
    pose proof (full_cells_lt 0 (zip nums idxs)) as Hlt.
    rewrite Forall_forall in Hlt. specialize (Hlt _ Hc).
    assert (length (zip nums idxs) ≤ length nums)%nat
      by (rewrite length_zip_with; lia).
    change (c'.1.1 / grid_cols < grid_rows)%nat.
    unfold grid_rows, grid_cols. apply Nat.Div0.div_lt_upper_bound.
    cbv beta in Hlt. lia.
Qed.

(** A sheet of three positions, the middle one empty. *)
Lemma cells_on_the_grid_witness :
  NoDup (sheet_rects (sheet_of {[4 := [0%nat]; 5 := [1%nat]]} ""
           (zip [Some 4; None; Some 5] [Some 0%nat; None; Some 1%nat]))) ∧
  Forall (λ rc, (rc.2 < grid_cols)%nat)
    (sheet_rects (sheet_of {[4 := [0%nat]; 5 := [1%nat]]} ""
       (zip [Some 4; None; Some 5] [Some 0%nat; None; Some 1%nat]))) ∧
  ((length [Some 4; None; Some 5] ≤ 6)%nat →
   Forall (λ rc, (rc.1 < grid_rows)%nat)
     (sheet_rects (sheet_of {[4 := [0%nat]; 5 := [1%nat]]} ""
        (zip [Some 4; None; Some 5] [Some 0%nat; None; Some 1%nat])))).
Proof.
  apply (cells_on_the_grid env_ok {[4 := [0%nat]; 5 := [1%nat]]}
           [Some 4; None; Some 5] [Some 0%nat; None; Some 1%nat] "" _ true).
  reflexivity.
Defined.

(** ** When a run writes its output *)

Section run_returns.

Lemma create_grid_page_ok_iff e ex nums idxs title :
  is_ok (create_grid_page e ex nums idxs title) ↔
  ∀ g p, (Some g, Some p) ∈ zip nums idxs → cell_drawable e ex g p.
Proof.
  unfold create_grid_page. rewrite <- (grid_loop_ok_iff e ex 0 _
    (if decide (title = "") then [] else [DrawTitle title]) false).
  destruct (grid_loop _ _ _ _ _ _) as [[ops hc]|err]; simpl.
  - split; intros _; by eexists.
  - split; by intros [? [=]].
Qed.

Lemma create_grid_page_shown e ex r nums title :
  (r ≤ 2)%nat →
  (∀ p, shown_page ex p → pixmap_ok e p = true ∧ draw_image_ok e p = true) →
  is_ok (create_grid_page e ex nums (resolve ex r <$> nums) title).
Proof.
  intros Hr Hok. apply create_grid_page_ok_iff.
  intros g p (Hg & l & Hl & Hp)%zip_resolve_full. split.
  - exists l. split; [done|]. by destruct l.
  - apply Hok. by exists g, l, r.
Qed.

Lemma primary_loop_shown e ex n w bs :
  (∀ p, shown_page ex p → pixmap_ok e p = true ∧ draw_image_ok e p = true) →
  groups_nonempty ex → Forall (λ b, length b = 6%nat) bs →
  is_ok (primary_loop e ex n w bs).
Proof.
  intros Hok Hne Hbs. revert n w.
  induction Hbs as [|b bs Hb Hbs IH]; intros n w; simpl; [by eexists|].
  assert (is_ok (primary_step e ex (S n) w b)) as [w' ->]; [|apply IH].
  unfold primary_step.
  rewrite (for_each_fmap _ (resolve ex 0))
    by (intros; by apply first_page_resolve).
  simpl.
  destruct (create_grid_page_shown e ex 0 b
              ("Batch " +:+ pretty (S n) +:+ " - First Pages"))
    as [[front hc0] ->]; [lia|done|]. simpl.
  destruct (back_order_total b Hb) as (bo & -> & _). simpl.
  rewrite (for_each_fmap _ (resolve ex 1))
    by (intros; by apply second_page_resolve).
  simpl.
  destruct (create_grid_page_shown e ex 1 bo
              ("Batch " +:+ pretty (S n) +:+ " - Second Pages"))
    as [[back hc] ->]; [lia|done|]. simpl.
  by eexists.
Qed.

Lemma third_loop_shown e ex w bs :
  (∀ p, shown_page ex p → pixmap_ok e p = true ∧ draw_image_ok e p = true) →
  Forall (λ b, ∀ g, Some g ∈ b → is_Some (ex !! g)) bs →
  is_ok (third_loop e ex w bs).
Proof.
  intros Hok Hbs. revert w.
  induction Hbs as [|b bs Hb Hbs IH]; intros w; simpl; [by eexists|].
  assert (is_ok (third_step e ex w b)) as [w' ->]; [|apply IH].
  unfold third_step. rewrite (for_each_fmap _ (resolve ex 2)).
  - simpl.
    destruct (create_grid_page_shown e ex 2 b
                ("Third Pages - Exams " +:+ list_repr (not_none b)))
      as [[third hc] ->]; [lia|done|]. simpl.
    by eexists.
  - intros x Hx. apply third_page_resolve. intros g ->. by apply Hb.
Qed.

Lemma layout_shown e ex :
  (∀ p, shown_page ex p → pixmap_ok e p = true ∧ draw_image_ok e p = true) →
  groups_nonempty ex → is_ok (layout e ex).
Proof.
  intros Hok Hne. unfold layout.
  destruct (primary_loop_shown e ex 0 (Writer [] 0) (batches (sorted_keys ex)))
    as [w ->]; [done..| |].
  { apply Forall_forall. intros b. apply batches_length. }
  simpl. rewrite third_page_exams_eq by (intros g; apply elem_of_sorted_keys).
  simpl. case_decide; simpl; [by eexists|].
  edestruct (third_loop_shown e ex w) as [w' ->]; [done| |by eexists].
  apply Forall_forall. intros b Hb g Hg.
  apply (batches_elem _ _ _ Hb), list_elem_of_filter in Hg as [_ Hg].
  by apply elem_of_sorted_keys.
Qed.

Lemma elem_of_shown_list ex p : p ∈ shown_list ex ↔ shown_page ex p.
Proof.
  unfold shown_list, shown_page. rewrite elem_of_concat_fmap. split.
  - intros (g & [l Hl]%elem_of_sorted_keys & Hp).
    destruct (decide (g = 0)); [by apply elem_of_nil in Hp|].
    unfold pages_of in Hp. rewrite Hl in Hp. simpl in Hp.
    apply elem_of_take in Hp as (r & Hr & Hlt).
    exists g, l, r. split_and!; [done..|lia].
  - intros (g & l & r & Hg & Hl & Hr & Hle). exists g.
    split; [apply elem_of_sorted_keys; eauto|].
    rewrite decide_False by done. unfold pages_of. rewrite Hl. simpl.
    apply elem_of_take. exists r. split; [done|lia].
Qed.

End run_returns.

(** X16, when a run writes its output.  [reformat_pdf] reaches the write
    of the output document exactly when every page that a sheet has to
    show (the first three pages of the groups with a non-zero id)
    rasterizes and blits; otherwise it raises.  Pages that no sheet shows
    may fail to render without harm, and append failures never stop it. *)
Theorem run_writes_iff (e : env) (pages : list string) :
  (is_ok (reformat_pdf e pages) ↔
   ∀ p, shown_page (exams (classify pages)) p →
        pixmap_ok e p = true ∧ draw_image_ok e p = true) ∧
  (is_err (reformat_pdf e pages) ↔
   ∃ p, shown_page (exams (classify pages)) p ∧
        (pixmap_ok e p = false ∨ draw_image_ok e p = false)).
Proof.
  assert (∀ p, shown_page (exams (classify pages)) p →
               pixmap_ok e p = false ∨ draw_image_ok e p = false →
               is_err (reformat_pdf e pages)) as Herr.
  { intros p (g & l & r & Hg & Hl & Hr & Hle) Hbad. unfold reformat_pdf.
    rewrite parse_pdf_ok. simpl. by eapply layout_err. }
  assert ((∀ p, shown_page (exams (classify pages)) p →
                pixmap_ok e p = true ∧ draw_image_ok e p = true) →
          is_ok (reformat_pdf e pages)) as Hok.
  { intros H. unfold reformat_pdf. rewrite parse_pdf_ok. simpl.
    apply layout_shown; [done|apply classify_nonempty]. }
  split; split.
  - intros Hrun p Hp.
    destruct (pixmap_ok e p) eqn:E1, (draw_image_ok e p) eqn:E2; try done;
      exfalso; eapply ok_not_err; try exact Hrun; eapply (Herr p Hp);
      rewrite ?E1, ?E2; auto.
  - exact Hok.
  - intros Hrun.
    destruct (decide (Forall (λ p, pixmap_ok e p = true
                                   ∧ draw_image_ok e p = true)
                        (shown_list (exams (classify pages))))) as [Hall|Hnot].
    + exfalso. eapply ok_not_err; [|exact Hrun]. apply Hok.
      intros p Hp%elem_of_shown_list. rewrite Forall_forall in Hall.
      by apply Hall.
    + apply not_Forall_Exists in Hnot; [|apply _].
      apply Exists_exists in Hnot as (p & Hp%elem_of_shown_list & Hbad).
      exists p. split; [done|]. unfold compose in Hbad.
      destruct (pixmap_ok e p); [|by left].
      destruct (draw_image_ok e p); [|by right].
      exfalso. apply Hbad. by split.
  - intros (p & Hp & Hbad). by eapply Herr.
Qed.

(** ** The count of the exams by number of pages *)

Section by_size.

Global Instance item_le_total : Total item_le.
Proof. intros a b. unfold item_le. apply (total Z.le). Qed.

Lemma sorted_items_keys (ex : gmap Z (list nat)) :
  (sorted_items ex).*1 = sorted_keys ex.
Proof.
  apply (Sorted_unique Z.le).
  - apply (Sorted_fmap _ item_le); [done|]. apply Sorted_merge_sort, _.
  - apply Sorted_merge_sort, _.
  - unfold sorted_items, sorted_keys. by rewrite !merge_sort_Permutation.
Qed.

Lemma sorted_items_eq (ex : gmap Z (list nat)) :
  sorted_items ex = (λ g, (g, pages_of ex g)) <$> sorted_keys ex.
Proof.
  rewrite <- sorted_items_keys. rewrite <- list_fmap_compose.
  rewrite <- (list_fmap_id (sorted_items ex)) at 1.
  apply list_fmap_ext. intros i [g l] Hi. simpl. f_equal.
  apply list_elem_of_lookup_2 in Hi. unfold sorted_items in Hi.
  rewrite merge_sort_Permutation in Hi. apply elem_of_map_to_list in Hi.
  unfold pages_of. by rewrite Hi.
Qed.

Lemma categorize_filters ex (ids one two three : list Z) :
  categorize ((λ g, (g, pages_of ex g)) <$> ids) one two three
  = (one ++ filter (λ g, length (pages_of ex g) = 1%nat) ids,
     two ++ filter (λ g, length (pages_of ex g) = 2%nat) ids,
     three ++ filter (λ g, length (pages_of ex g) ≠ 1%nat
                           ∧ length (pages_of ex g) ≠ 2%nat) ids).
Proof.
  revert one two three. induction ids as [|g ids IH]; intros one two three.
  - simpl. by rewrite !app_nil_r.
  - rewrite fmap_cons. cbn [categorize]. rewrite !filter_cons.
    destruct (Nat.eqb_spec (length (pages_of ex g)) 1) as [H1|H1].
    + rewrite IH, decide_True, decide_False, decide_False by lia.
      by rewrite <- app_assoc.
    + destruct (Nat.eqb_spec (length (pages_of ex g)) 2) as [H2|H2].
      * rewrite IH, decide_False, decide_True, decide_False by lia.
        by rewrite <- app_assoc.
      * rewrite IH, decide_False, decide_False, decide_True by lia.
        by rewrite <- app_assoc.
Qed.

Lemma three_filters_length ex (ids : list Z) :
  (length (filter (λ g, length (pages_of ex g) = 1%nat) ids)
   + length (filter (λ g, length (pages_of ex g) = 2%nat) ids)
   + length (filter (λ g, length (pages_of ex g) ≠ 1%nat
                          ∧ length (pages_of ex g) ≠ 2%nat) ids))%nat
  = length ids.
Proof.
  induction ids as [|g ids IH]; [done|]. rewrite !filter_cons.
  destruct (decide (length (pages_of ex g) = 1%nat)) as [H1|H1];
    destruct (decide (length (pages_of ex g) = 2%nat)) as [H2|H2];
    destruct (decide (length (pages_of ex g) ≠ 1%nat
                      ∧ length (pages_of ex g) ≠ 2%nat)) as [H3|H3];
    simpl; lia.
Qed.

Lemma filter_ext_elem {A} (P Q : A → Prop) `{∀ x, Decision (P x)}
    `{∀ x, Decision (Q x)} (l : list A) :
  (∀ x, x ∈ l → P x ↔ Q x) → filter P l = filter Q l.
Proof.
  induction l as [|x l IH]; intros HPQ; [done|]. rewrite !filter_cons.
  rewrite IH by (intros y Hy; apply HPQ; by right).
  destruct (decide (P x)) as [HP|HP], (decide (Q x)) as [HQ|HQ]; try done;
    exfalso; apply (HPQ x) in HP || apply HP, (HPQ x); try done; by left.
Qed.

End by_size.

(** X17, the exams counted by size.  The three lists that [reformat_pdf]
    fills before the layout hold, in ascending order, the exams of one
    page, of two pages and all the others; every exam is in exactly one of
    them, so their lengths add up to the number of exams; and after
    [parse_pdf] the third list is the list of the exams that get a sheet of
    third pages. *)
Theorem exams_by_size_split :
  (∀ ex : gmap Z (list nat),
     exams_by_size ex
     = (filter (λ g, length (pages_of ex g) = 1%nat) (sorted_keys ex),
        filter (λ g, length (pages_of ex g) = 2%nat) (sorted_keys ex),
        filter (λ g, length (pages_of ex g) ≠ 1%nat
                     ∧ length (pages_of ex g) ≠ 2%nat) (sorted_keys ex)) ∧
     (length (exams_by_size ex).1.1 + length (exams_by_size ex).1.2
      + length (exams_by_size ex).2)%nat = size ex) ∧
  (∀ pages : list string,
     third_page_exams (exams (classify pages))
       (sorted_keys (exams (classify pages)))
     = Ok (exams_by_size (exams (classify pages))).2).
Proof.
  assert (∀ ex : gmap Z (list nat),
     exams_by_size ex
     = (filter (λ g, length (pages_of ex g) = 1%nat) (sorted_keys ex),
        filter (λ g, length (pages_of ex g) = 2%nat) (sorted_keys ex),
        filter (λ g, length (pages_of ex g) ≠ 1%nat
                     ∧ length (pages_of ex g) ≠ 2%nat) (sorted_keys ex)))
    as Heq.
  { intros ex. unfold exams_by_size.
    by rewrite sorted_items_eq, categorize_filters. }
  split.
  - intros ex. split; [apply Heq|]. rewrite Heq. simpl.
    by rewrite three_filters_length, sorted_keys_length.
  - intros pages. rewrite Heq. simpl.
    rewrite third_page_exams_eq by (intros g; apply elem_of_sorted_keys).
    f_equal. apply filter_ext_elem.
    intros g [l El]%elem_of_sorted_keys.
    pose proof (classify_nonempty pages g l El) as Hne.
    unfold pages_of. rewrite El. simpl.
    destruct l as [|? [|? [|? ?]]]; simpl; [done|lia..].
Qed.
